(** * UpworkScraper: a shallow embedding of the scrape cycle

    The development follows the three source files of the scraper:
    - [utils/telegram_service.py]   (message formatting),
    - [utils/search_scraper.py]     (the structured tile extractor),
    - [upwork_best_matches_scraper.py] (session probe, the loose anchor
      extractor and the persist-and-notify loops of [main]).

    Python [str] values are sequences of Unicode code points, so they are
    modelled as [list N]; [len], slicing and [in] then count code points as
    Python does.  DOM look-ups, database statements and helper calls that
    may raise are values of the [result] type. *)

From Stdlib Require Import String Ascii NArith.
From stdpp Require Import base decidable option list gmap.

Local Open Scope N_scope.
Local Open Scope nat_scope.

(** ** Python strings *)

Abbreviation str := (list N).

Module PyStr.

(** A source literal, character by character. *)
Definition lit (s : string) : str :=
  List.map N_of_ascii (list_ascii_of_string s).

(** [s.startswith(p)] *)
Fixpoint startswith (p s : str) : bool :=
  match p, s with
  | [], _ => true
  | _ :: _, [] => false
  | a :: p', b :: s' => N.eqb a b && startswith p' s'
  end.

(** [sub in s] *)
Fixpoint contains (sub s : str) : bool :=
  startswith sub s ||
  match s with
  | [] => false
  | _ :: s' => contains sub s'
  end.

(** [s.split(sep)] for a non-empty [sep]: left to right, separators do
    not overlap.  [skip] counts the characters of a separator that has
    just been matched and still has to be passed over. *)
Fixpoint split_go (sep : str) (skip : nat) (s : str) : list str :=
  match s with
  | [] => [[]]
  | c :: s' =>
      match skip with
      | S k => split_go sep k s'
      | O =>
          if startswith sep s
          then [] :: split_go sep (length sep - 1) s'
          else match split_go sep 0 s' with
               | piece :: pieces => (c :: piece) :: pieces
               | [] => [[c]]
               end
      end
  end.

Definition split (sep s : str) : list str := split_go sep 0 s.

(** [s.split(sep)[0]]; [split] never returns an empty list. *)
Definition first_piece (sep s : str) : str :=
  match split sep s with
  | piece :: _ => piece
  | [] => []
  end.

(** [sep.join(parts)] *)
Fixpoint join (sep : str) (parts : list str) : str :=
  match parts with
  | [] => []
  | [p] => p
  | p :: ps => p ++ sep ++ join sep ps
  end.

(** [s.replace(chr(c), '')] for a single character. *)
Definition remove_char (c : N) (s : str) : str :=
  List.filter (fun x => negb (N.eqb x c)) s.

(** [str.isspace] on one character: the code points Python's [strip()]
    removes (bidirectional classes WS, B, S and category Zs). *)
Definition is_space (c : N) : bool :=
  ((9 <=? c) && (c <=? 13) || (28 <=? c) && (c <=? 32) ||
   (c =? 133) || (c =? 160) || (c =? 5760) ||
   (8192 <=? c) && (c <=? 8202) || (c =? 8232) || (c =? 8233) ||
   (c =? 8239) || (c =? 8287) || (c =? 12288))%N.

Fixpoint lstrip (s : str) : str :=
  match s with
  | c :: s' => if is_space c then lstrip s' else s
  | [] => []
  end.

Definition rstrip (s : str) : str := rev (lstrip (rev s)).

(** [s.strip()] *)
Definition strip (s : str) : str := rstrip (lstrip s).

(** Truthiness of a string: [if s:]. *)
Definition truthy (s : str) : bool :=
  match s with [] => false | _ :: _ => true end.

(** The ASCII rows of the case table, used to run the model on concrete
    pages; the extractors below take [str.lower] as a parameter. *)
Definition ascii_lower (s : str) : str :=
  List.map (fun c => if ((65 <=? c) && (c <=? 90))%N then (c + 32)%N else c) s.

End PyStr.

Import PyStr.

(** ** URL canonicalisation: [url.split('/?')[0]] *)

Definition canonical_url (url : str) : str := first_piece (lit "/?") url.

(** ** Exceptions

    A call that may raise returns a [result]; [exn] is the class name of
    the exception, an instance of [Exception], the class every handler of
    the source names.  [try_except] is
    [try: body / except Exception: handler]. *)

Definition exn := string.

Inductive result (A : Type) : Type :=
| Ok (a : A)
| Raise (e : exn).
Arguments Ok {A} a.
Arguments Raise {A} e.

#[global] Instance result_ret : MRet result := fun A a => Ok a.
#[global] Instance result_bind : MBind result := fun A B f r =>
  match r with
  | Ok a => f a
  | Raise e => Raise e
  end.

Definition try_except {A} (body : result A) (handler : exn -> result A) : result A :=
  match body with
  | Ok a => Ok a
  | Raise e => handler e
  end.

(** [try: x = body / except Exception: pass] with [x] preset to [dflt]. *)
Definition try_or {A} (dflt : A) (body : result A) : A :=
  match body with
  | Ok a => a
  | Raise _ => dflt
  end.

(** ** Session probe ([upwork_best_matches_scraper.py], [is_driver_alive]) *)

Record Driver := { execute_script : str -> result unit }.

(** The handle may be [None]: attribute access on it raises. *)
Definition is_driver_alive (current_driver : option Driver) : result bool :=
  try_except
    (match current_driver with
     | None => Raise "AttributeError"%string
     | Some d => _ ← execute_script d (lit "return 1"); Ok true
     end)
    (fun _ => Ok false).

(** ** Notification text ([utils/telegram_service.py]) *)

(** The literal appended to a truncated description, as stored in the
    source file: the three code points U+00E2 U+20AC U+00A6. *)
Definition ellipsis_marker : str := [226; 8364; 166]%N.

Definition separator : str := lit "---".
Definition newline : str := [10%N].

Section Telegram.

(** [datetime] objects and the two standard-library calls made on them. *)
Variable datetime : Type.
(** [value.strftime('%Y-%m-%d %H:%M')] *)
Variable strftime_short : datetime -> str.
(** [datetime.fromisoformat(s)], raising [ValueError] *)
Variable fromisoformat : str -> result datetime.

(** The values [main] stores under ['posted_date']. *)
Inductive pyval : Type :=
| VNone
| VStr (s : str)
| VDatetime (d : datetime).

(** The job dictionary handed to [notify_new_job]; [None] stands for a
    missing key or a [None] value ([job.get]). *)
Record Job := {
  job_id : option str;
  job_url : option str;
  job_title : option str;
  posted_date : pyval;
  job_description : option str;
  job_tags : option str;
  job_proposals : option str;
}.

Definition _val (value : option str) : str :=
  match value with
  | None => []
  | Some s => s
  end.

(** [desc_full[:800] + marker if len(desc_full) > 800 else desc_full] *)
Definition truncate_description (desc_full : str) : str :=
  if 800 <? length desc_full
  then take 800 desc_full ++ ellipsis_marker
  else desc_full.

Definition _short_date (value : pyval) : str :=
  match value with
  | VDatetime d => strftime_short d
  | _ =>
      let s := match value with VStr s => s | _ => [] end in
      if negb (truthy s) then []
      else
        match fromisoformat (remove_char 90%N s) with
        | Ok dt => strftime_short dt
        | Raise _ => if 16 <=? length s then take 16 s else s
        end
  end.

Definition message_lines (job : Job) : list str :=
  [ _val (job_title job);
    separator;
    _val (job_url job);
    separator;
    _short_date (posted_date job);
    separator;
    truncate_description (_val (job_description job)) ].

Definition format_job_message (job : Job) : str :=
  let body := join newline (message_lines job) in
  separator ++ newline ++ body ++ newline ++ separator.

(** The message as the specification words it: the seven lines and
    nothing else.  Compared with [format_job_message] below. *)
Definition message_as_specified (job : Job) : str :=
  join newline (message_lines job).

End Telegram.

Arguments VNone {datetime}.
Arguments VStr {datetime} s.
Arguments VDatetime {datetime} d.
Arguments job_id {datetime} j.
Arguments job_url {datetime} j.
Arguments job_title {datetime} j.
Arguments posted_date {datetime} j.
Arguments job_description {datetime} j.
Arguments job_tags {datetime} j.
Arguments job_proposals {datetime} j.
Arguments _short_date {datetime} strftime_short fromisoformat value.
Arguments message_lines {datetime} strftime_short fromisoformat job.
Arguments format_job_message {datetime} strftime_short fromisoformat job.
Arguments message_as_specified {datetime} strftime_short fromisoformat job.

(** ** Configuration ([settings.config])

    Only the attributes the extractors and the cycle read.  [None] is an
    attribute that is not set: [getattr(config, name, [])] then yields the
    empty list and the plain access [config.name] raises. *)

Record Config := {
  BANNED_COUNTRIES : option (list str);
  SEARCH_PAGES : option (list str);
}.

Definition getattr_list (attr : option (list str)) : list str :=
  match attr with
  | Some l => l
  | None => []
  end.

Definition attr_list (attr : option (list str)) : result (list str) :=
  match attr with
  | Some l => Ok l
  | None => Raise "AttributeError"%string
  end.

(** ** The rendered page

    A snapshot of what each Selenium call answers: a value or an
    exception ([NoSuchElementException], a stale element, ...). *)

Record Element := { text : result str }.

(** The container of a job anchor on the best-matches page. *)
Record Container := {
  find_p : result (list Element);
  find_div : result (list Element);
  find_span : result (list Element);
  find_proposals : result Element;
  find_posted : result Element;
}.

(** An anchor matched by [//a[contains(@href, '/jobs/')]]. *)
Record Anchor := {
  href : result (option str);
  anchor_text : result str;
  ancestor_section : result Container;
  ancestor_article : result Container;
  ancestor_div : result Container;
}.

(** The parts of a search-result tile. *)
Record TitleLink := {
  title_href : result (option str);
  title_text : result str;
}.

Record SpentLi := {
  spent_strong : result Element;
  spent_text : result str;
}.

Record LocationLi := {
  location_span : result Element;
  location_text : result str;
}.

Record ClientUl := {
  payment_verified : result unit;
  payment_unverified : result unit;
  rating_value : result Element;
  total_spent : result SpentLi;
  location : result LocationLi;
}.

Record Tile := {
  title_link : result TitleLink;
  posted_small : result Element;
  desc_p : result Element;
  prop_li : result Element;
  tag_spans : result (list Element);
  client_ul : result ClientUl;
}.

(** [if client_parts:] *)
Definition truthy_list {A} (l : list A) : bool :=
  match l with [] => false | _ :: _ => true end.

(** One element of [job_entries]. *)
Record Entry := {
  url : str;
  title : str;
  description : str;
  proposals : str;
  posted : str;
  tags : list str;
}.

(** [get_attribute('href') or ''] *)
Definition or_empty (v : option str) : str :=
  match v with
  | Some s => s
  | None => []
  end.

(** The three path fragments both extractors refuse. *)
Definition url_denylist : list str :=
  [lit "ontology_skill_uid"; lit "search/saved"; lit "search/jobs/saved"].

Definition denylisted (u : str) : bool :=
  existsb (fun bad => contains bad u) url_denylist.

(** [max(text_candidates, key=len)] on a non-empty list: the first of the
    longest candidates. *)
Fixpoint max_by_len (best : str) (rest : list str) : str :=
  match rest with
  | [] => best
  | t :: rest' =>
      if length best <? length t then max_by_len t rest' else max_by_len best rest'
  end.

(** The first ancestor look-up that does not raise. *)
Fixpoint first_found {A} (lookups : list (result A)) : option A :=
  match lookups with
  | [] => None
  | Ok c :: _ => Some c
  | Raise _ :: rest => first_found rest
  end.

(** The inner loop over the elements of one xpath: stripped texts that
    are non-empty and differ from the title; a raising [el.text] leaves
    the enclosing [try]. *)
Fixpoint candidate_texts (title_ : str) (els : list Element) : result (list str) :=
  match els with
  | [] => Ok []
  | el :: els' =>
      t ← text el;
      rest ← candidate_texts title_ els';
      let t := strip t in
      Ok (if truthy t && negb (bool_decide (t = title_)) then t :: rest else rest)
  end.

Definition text_candidates (title_ : str) (c : Container) : result (list str) :=
  ps ← (els ← find_p c; candidate_texts title_ els);
  ds ← (els ← find_div c; candidate_texts title_ els);
  ss ← (els ← find_span c; candidate_texts title_ els);
  Ok (ps ++ ds ++ ss).

(** The "richer fields" block of the best-matches loop:
    [(description_text, proposals_text, posted_text)]. *)
Definition container_fields (link : Anchor) (title_ : str) : str * str * str :=
  match first_found [ancestor_section link; ancestor_article link; ancestor_div link] with
  | None => ([], [], [])
  | Some c =>
      match text_candidates title_ c with
      | Raise _ => ([], [], [])
      | Ok cands =>
          let description_text :=
            match cands with
            | [] => []
            | t :: rest => max_by_len t rest
            end in
          let proposals_text := try_or [] (el ← find_proposals c; text el) in
          let posted_text := try_or [] (el ← find_posted c; text el) in
          (description_text, proposals_text, posted_text)
      end
  end.

(** ** The two extraction strategies *)

Section Extractor.

(** [str.lower], from the Python runtime. *)
Variable str_lower : str -> str.
Variable config : Config.

(** [any(bc.lower() in lowered for bc in banned_list)] *)
Definition mentions_banned (banned_list : list str) (lowered : str) : bool :=
  existsb (fun bc => contains (str_lower bc) lowered) banned_list.

(** *** Loose strategy: the "Collect job links" loop of [main]

    The loop state is [(job_urls_seen, job_entries)]; every [continue]
    returns it as it stands at that point. *)
Definition collect_link (st : gset str * list Entry) (link : Anchor)
  : gset str * list Entry :=
  let '(job_urls_seen, job_entries) := st in
  match href link with
  | Raise _ => st
  | Ok h =>
      let url0 := or_empty h in
      if negb (truthy url0) then st
      else if denylisted url0 then st
      else
        let url_ := canonical_url url0 in
        match anchor_text link with
        | Raise _ => st
        | Ok t =>
            let title_ := strip t in
            if negb (truthy title_) then st
            else if bool_decide (url_ ∈ job_urls_seen) then st
            else
              let job_urls_seen := {[url_]} ∪ job_urls_seen in
              let '(description_text, proposals_text, posted_text) :=
                container_fields link title_ in
              if truthy description_text &&
                 mentions_banned (getattr_list (BANNED_COUNTRIES config))
                                 (str_lower description_text)
              then (job_urls_seen, job_entries)
              else
                (job_urls_seen,
                 job_entries ++
                   [{| url := url_; title := title_;
                       description := description_text;
                       proposals := proposals_text;
                       posted := posted_text;
                       tags := [] |}])
        end
  end.

Definition collect_links_from (st : gset str * list Entry) (raw_links : list Anchor)
  : gset str * list Entry :=
  foldl collect_link st raw_links.

Definition collect_job_entries (raw_links : list Anchor) : list Entry :=
  snd (collect_links_from (∅, []) raw_links).

(** *** Structured strategy: [scrape_search_page] *)

(** Tags appended before the first raising [btn.text] stay in the list. *)
Fixpoint tag_texts (btns : list Element) : list str :=
  match btns with
  | [] => []
  | btn :: btns' =>
      match text btn with
      | Raise _ => []
      | Ok t =>
          let tag_text := strip t in
          if truthy tag_text then tag_text :: tag_texts btns' else tag_texts btns'
      end
  end.

Definition payment_part (ul : ClientUl) : list str :=
  match payment_verified ul with
  | Ok _ => [lit "Payment verified"]
  | Raise _ =>
      match payment_unverified ul with
      | Ok _ => [lit "Payment unverified"]
      | Raise _ => []
      end
  end.

Definition rating_part (ul : ClientUl) : list str :=
  try_or []
    (el ← rating_value ul;
     rating_text ← text el;
     Ok (if truthy rating_text then [lit "rating " ++ rating_text] else [])).

Definition spent_part (ul : ClientUl) : list str :=
  try_or []
    (spent_li ← total_spent ul;
     try_except
       (el ← spent_strong spent_li;
        amount ← text el;
        Ok (if truthy amount then [amount ++ lit " spent"] else []))
       (fun _ =>
          t ← spent_text spent_li;
          let txt := strip t in
          Ok (if truthy txt then [txt] else []))).

Definition location_prefixes : list str :=
  [lit "Location "; lit "Location:"; lit "Location" ++ [160%N];
   lit "Location" ++ [10%N]; lit "Location" ++ [9%N]; lit "Location"].

(** The [for prefix in ...: if country.startswith(prefix): ...; break] loop. *)
Fixpoint drop_location_prefix (prefixes : list str) (country : str) : str :=
  match prefixes with
  | [] => country
  | prefix :: rest =>
      if startswith prefix country
      then strip (drop (length prefix) country)
      else drop_location_prefix rest country
  end.

(** [if '\n' in country: ... country = tokens[-1]] *)
Definition last_visible_token (country : str) : str :=
  if contains newline country then
    let tokens :=
      List.filter truthy (List.map strip (split newline country)) in
    match tokens with
    | [] => country
    | _ :: _ => List.last tokens []
    end
  else country.

Definition location_part (ul : ClientUl) : list str :=
  try_or []
    (loc_li ← location ul;
     let country := try_or [] (el ← location_span loc_li; t ← text el; Ok (strip t)) in
     let country :=
       if negb (truthy country)
       then try_or [] (t ← location_text loc_li; Ok (strip t))
       else country in
     let country :=
       if truthy country
       then last_visible_token (drop_location_prefix location_prefixes country)
       else country in
     Ok (if truthy country then [country] else [])).

(** [client_parts]: payment, rating, spent and location, in this order. *)
Definition client_parts_of (tile : Tile) : list str :=
  match client_ul tile with
  | Raise _ => []
  | Ok ul => payment_part ul ++ rating_part ul ++ spent_part ul ++ location_part ul
  end.

(** The first filter: [for banned_country in lowered_countries:
    if any(banned_country in part.lower() for part in client_parts)]. *)
Definition client_banned (banned : list str) (client_parts : list str) : bool :=
  existsb
    (fun banned_country =>
       existsb (fun part => contains banned_country (str_lower part)) client_parts)
    (List.map str_lower banned).

(** [' | '.join(client_parts)], the two labelled lines and the raw
    description, joined by newlines. *)
Definition compose_description (client_parts : list str)
    (proposals_text description_text : str) : str :=
  let client_info :=
    match client_parts with
    | [] => []
    | _ :: _ => join (lit " | ") client_parts
    end in
  join newline
    ((if truthy client_info then [lit "Client: " ++ client_info ++ newline ++ lit "-"] else []) ++
     (if truthy proposals_text then [lit "Proposals: " ++ proposals_text ++ newline ++ lit "-"] else []) ++
     (if truthy description_text then [description_text] else [])).

(** [description_text]: the stripped text of the description
    paragraph, [''] when the look-up raises. *)
Definition tile_description_text (tile : Tile) : str :=
  try_or [] (el ← desc_p tile; t ← text el; Ok (strip t)).

(** The body of [for tile in tiles], as a computation that raises where
    the source raises; [scrape_tile] below is the [try/except: continue]
    around it.  The set of seen URLs is returned also when the body
    raises after the URL was added. *)
Definition scrape_tile_body (job_urls_seen : gset str) (tile : Tile)
  : gset str * result (option Entry) :=
  match (title_el ← title_link tile;
         h ← title_href title_el;
         t ← title_text title_el;
         Ok (strip (or_empty h), strip t)) with
  | Raise e => (job_urls_seen, Raise e)
  | Ok (href0, title_) =>
      if negb (truthy href0) || negb (truthy title_) then (job_urls_seen, Ok None)
      else if denylisted href0 then (job_urls_seen, Ok None)
      else
        let href_ := canonical_url href0 in
        if bool_decide (href_ ∈ job_urls_seen) then (job_urls_seen, Ok None)
        else
          let job_urls_seen := {[href_]} ∪ job_urls_seen in
          let posted_text := try_or [] (el ← posted_small tile; text el) in
          let description_text := tile_description_text tile in
          let proposals_text :=
            try_or [] (el ← prop_li tile; t ← text el; Ok (strip t)) in
          let tags_list := try_or [] (btns ← tag_spans tile; Ok (tag_texts btns)) in
          let client_parts := client_parts_of tile in
          (job_urls_seen,
           _ ← (if truthy_list client_parts
                then banned ← attr_list (BANNED_COUNTRIES config);
                     if client_banned banned client_parts
                     then Raise "Exception"%string else Ok ()
                else Ok ());
           _ ← (if truthy description_text &&
                   mentions_banned (getattr_list (BANNED_COUNTRIES config))
                                   (str_lower description_text)
                then Raise "Exception"%string else Ok ());
           Ok (Some {| url := href_; title := title_;
                       description :=
                         compose_description client_parts proposals_text description_text;
                       proposals := proposals_text;
                       posted := posted_text;
                       tags := tags_list |}))
  end.

Definition scrape_tile (st : gset str * list Entry) (tile : Tile)
  : gset str * list Entry :=
  let '(job_urls_seen, job_entries) := st in
  match scrape_tile_body job_urls_seen tile with
  | (seen', Ok (Some entry)) => (seen', job_entries ++ [entry])
  | (seen', Ok None) => (seen', job_entries)
  | (seen', Raise _) => (seen', job_entries)
  end.

Definition scrape_tiles_from (st : gset str * list Entry) (tiles : list Tile)
  : gset str * list Entry :=
  foldl scrape_tile st tiles.

(** [scrape_search_page(driver, url)]: [page] is what navigating,
    scrolling and waiting for the first tile yield, an exception
    (a time-out, say) or the tiles found. *)
Definition scrape_search_page (page : result (list Tile)) : result (list Entry) :=
  tiles ← page;
  Ok (snd (scrape_tiles_from (∅, []) tiles)).

End Extractor.

(** ** Persist and notify: the body of one scrape cycle *)

(** What the browser shows in one cycle: the anchors found on the
    best-matches page after navigation, scrolling and the bounded wait
    (an exception if the wait times out), and the same for the tiles of
    each auxiliary search URL. *)
Record Browser := {
  best_matches : result (list Anchor);
  search_page : str -> result (list Tile);
}.

Section Cycle.

Variable datetime : Type.
Variable str_lower : str -> str.
Variable config : Config.

(** The helpers imported from [utils.job_helpers]: the identifier is a
    function of the title; the two cleaners may raise. *)
Variable generate_job_id : str -> str.
Variable clean_job_proposals : str -> result str.
Variable calculate_posted_datetime : str -> result (pyval datetime).

(** [datetime.now()] at the n-th reading of the clock. *)
Variable clock : nat -> datetime.

(** A row of the [jobs] table, with the columns the cycle names. *)
Record Row := {
  row_job_id : str;
  row_job_url : str;
  row_job_title : str;
  row_posted_date : pyval datetime;
  row_job_description : str;
  row_job_tags : str;
  row_job_proposals : str;
  row_updated_at : option datetime;
}.

(** The four statements the cycle sends through the cursor and the
    connection. *)
Inductive statement : Type :=
| SelectCount (id : str)
| UpdateProposals (new_proposals : str) (now : datetime) (id : str)
| InsertJob (r : Row)
| Commit.

(** The statements on which the database raises. *)
Variable db_raises : statement -> bool.

(** The table as the connection sees it, the last committed table, the
    jobs handed to [notify_new_job] so far, and the clock readings. *)
Record World := {
  jobs : list Row;
  committed : list Row;
  notifications : list (Job datetime);
  ticks : nat;
}.

(** Computations that read and update the world and may raise; the
    world reached when the exception is raised is kept. *)
Definition M (A : Type) : Type := World -> result A * World.

Definition ret {A} (a : A) : M A := fun w => (Ok a, w).

Definition bind {A B} (m : M A) (k : A -> M B) : M B :=
  fun w =>
    match m w with
    | (Ok a, w') => k a w'
    | (Raise e, w') => (Raise e, w')
    end.

Definition lift {A} (r : result A) : M A := fun w => (r, w).

(** [try: body / except Exception as exc: logger.exception(...)] *)
Definition logged (body : M unit) : M unit :=
  fun w =>
    match body w with
    | (Ok _, w') => (Ok (), w')
    | (Raise _, w') => (Ok (), w')
    end.

Definition now : M datetime :=
  fun w =>
    (Ok (clock (ticks w)),
     {| jobs := jobs w; committed := committed w;
        notifications := notifications w; ticks := S (ticks w) |}).

Definition has_id (id : str) (r : Row) : bool := bool_decide (row_job_id r = id).

Definition set_proposals (new_proposals : str) (t : datetime) (r : Row) : Row :=
  {| row_job_id := row_job_id r;
     row_job_url := row_job_url r;
     row_job_title := row_job_title r;
     row_posted_date := row_posted_date r;
     row_job_description := row_job_description r;
     row_job_tags := row_job_tags r;
     row_job_proposals := new_proposals;
     row_updated_at := Some t |}.

(** What a statement does to the table when it does not raise. *)
Definition run (s : statement) (w : World) : nat * World :=
  match s with
  | SelectCount id => (length (List.filter (has_id id) (jobs w)), w)
  | UpdateProposals p t id =>
      (0, {| jobs := List.map (fun r => if has_id id r then set_proposals p t r else r) (jobs w);
             committed := committed w;
             notifications := notifications w; ticks := ticks w |})
  | InsertJob r =>
      (0, {| jobs := jobs w ++ [r]; committed := committed w;
             notifications := notifications w; ticks := ticks w |})
  | Commit =>
      (0, {| jobs := jobs w; committed := jobs w;
             notifications := notifications w; ticks := ticks w |})
  end.

(** [cursor.execute(...)] / [conn.commit()] *)
Definition execute (s : statement) : M nat :=
  fun w => if db_raises s then (Raise "DatabaseError"%string, w) else
             let '(n, w') := run s w in (Ok n, w').

(** [notify_new_job(job)]: the message is formatted and handed to the
    transport, whose own failures are logged and not raised. *)
Definition notify_new_job (job : Job datetime) : M unit :=
  fun w =>
    (Ok (), {| jobs := jobs w; committed := committed w;
               notifications := notifications w ++ [job]; ticks := ticks w |}).

Definition tags_literal : str := lit "[]".

(** The body of [for entry in job_entries] (and, word for word, of
    [for entry in search_entries]). *)
Definition persist_entry (entry : Entry) : M unit :=
  let job_id_ := generate_job_id (title entry) in
  let job_url_ := url entry in
  let posted_date_ :=
    if truthy (posted entry)
    then try_or VNone (calculate_posted_datetime (posted entry))
    else VNone in
  let job_title_ := title entry in
  let job_description_ := description entry in
  let job_proposals_ :=
    if truthy (proposals entry)
    then try_or [] (clean_job_proposals (proposals entry))
    else [] in
  bind (execute (SelectCount job_id_)) (fun count =>
  bind (if 0 <? count
        then bind now (fun t =>
             bind (execute (UpdateProposals job_proposals_ t job_id_)) (fun _ => ret ()))
        else bind (execute (InsertJob
                     {| row_job_id := job_id_; row_job_url := job_url_;
                        row_job_title := job_title_; row_posted_date := posted_date_;
                        row_job_description := job_description_;
                        row_job_tags := tags_literal;
                        row_job_proposals := job_proposals_;
                        row_updated_at := None |})) (fun _ =>
             notify_new_job
               {| job_id := Some job_id_; job_url := Some job_url_;
                  job_title := Some job_title_; posted_date := posted_date_;
                  job_description := Some job_description_;
                  job_tags := Some tags_literal;
                  job_proposals := Some job_proposals_ |}))
       (fun _ =>
  bind (execute Commit) (fun _ => ret ()))).

Fixpoint persist_entries (entries : list Entry) : M unit :=
  match entries with
  | [] => ret ()
  | entry :: rest => bind (persist_entry entry) (fun _ => persist_entries rest)
  end.

(** One auxiliary page, inside its own [try/except]. *)
Definition visit_search_page (browser : Browser) (search_url : str) : M unit :=
  logged
    (bind (lift (scrape_search_page str_lower config (search_page browser search_url)))
          persist_entries).

Fixpoint visit_search_pages (browser : Browser) (urls : list str) : M unit :=
  match urls with
  | [] => ret ()
  | u :: rest =>
      bind (visit_search_page browser u) (fun _ => visit_search_pages browser rest)
  end.

(** The cycle from the wait for job links to the last auxiliary page.
    A [Raise] here leaves the [while True] loop and reaches the handler
    of [main], which logs it and returns [False]. *)
Definition scrape_cycle (browser : Browser) : M unit :=
  bind (lift (best_matches browser)) (fun raw_links =>
  bind (persist_entries (collect_job_entries str_lower config raw_links)) (fun _ =>
  visit_search_pages browser (getattr_list (SEARCH_PAGES config)))).

End Cycle.

Arguments row_job_id {datetime} r.
Arguments row_job_url {datetime} r.
Arguments row_job_title {datetime} r.
Arguments row_posted_date {datetime} r.
Arguments row_job_description {datetime} r.
Arguments row_job_tags {datetime} r.
Arguments row_job_proposals {datetime} r.
Arguments row_updated_at {datetime} r.
Arguments SelectCount {datetime} id.
Arguments UpdateProposals {datetime} new_proposals now id.
Arguments InsertJob {datetime} r.
Arguments Commit {datetime}.
Arguments jobs {datetime} w.
Arguments committed {datetime} w.
Arguments notifications {datetime} w.
Arguments ticks {datetime} w.
Arguments has_id {datetime} id r.
Arguments set_proposals {datetime} new_proposals t r.
Arguments persist_entry {datetime}.
Arguments persist_entries {datetime}.
Arguments visit_search_page {datetime}.
Arguments visit_search_pages {datetime}.
Arguments scrape_cycle {datetime}.

(** ** Notification transport ([utils/telegram_service.py]) *)

Module TelegramService.

(** The three attributes read with [getattr(config, name, None)]. *)
Record Settings := {
  TELEGRAM_BOT_TOKEN : option str;
  TELEGRAM_CHAT_ID : option str;
  TELEGRAM_THREAD_ID : option str;
}.

Record Params := {
  token : str;
  chat_id : str;
  thread_id : option str;
}.

(** [if value:] for a value that may be [None]. *)
Definition truthy_opt (v : option str) : bool :=
  match v with
  | Some s => truthy s
  | None => false
  end.

Definition _get_telegram_params (settings : Settings) : option Params :=
  if negb (truthy_opt (TELEGRAM_BOT_TOKEN settings)) ||
     negb (truthy_opt (TELEGRAM_CHAT_ID settings))
  then None
  else Some {| token := or_empty (TELEGRAM_BOT_TOKEN settings);
               chat_id := or_empty (TELEGRAM_CHAT_ID settings);
               thread_id := TELEGRAM_THREAD_ID settings |}.

(** The JSON body; [message_thread_id = None] is a key that is not set. *)
Record Payload := {
  payload_chat_id : str;
  payload_text : str;
  disable_web_page_preview : bool;
  message_thread_id : option str;
}.

Record Request := {
  request_url : str;
  request_json : Payload;
  request_timeout : nat;
}.

Record Response := {
  ok : bool;
  status_code : nat;
  response_text : str;
}.

Section Transport.

Variable settings : Settings.
(** [requests.post(url, json=payload, timeout=20)] *)
Variable post : Request -> result Response.

(** The result and the requests made. *)
Definition send_telegram_message (message : str) : bool * list Request :=
  match _get_telegram_params settings with
  | None => (false, [])
  | Some params =>
      let request :=
        {| request_url := lit "https://api.telegram.org/bot" ++ token params ++ lit "/sendMessage";
           request_json :=
             {| payload_chat_id := chat_id params;
                payload_text := message;
                disable_web_page_preview := true;
                message_thread_id :=
                  if truthy_opt (thread_id params) then thread_id params else None |};
           request_timeout := 20 |} in
      match post request with
      | Ok resp => (ok resp, [request])
      | Raise _ => (false, [request])
      end
  end.

Variable datetime : Type.
Variable strftime_short : datetime -> str.
Variable fromisoformat : str -> result datetime.

(** [notify_new_job(job)] returns nothing; the requests made remain. *)
Definition notify_new_job (job : Job datetime) : list Request :=
  (send_telegram_message (format_job_message strftime_short fromisoformat job)).2.

End Transport.

Arguments notify_new_job settings post {datetime} strftime_short fromisoformat job.

End TelegramService.

(** ** Session manager ([upwork_best_matches_scraper.py]) *)

Module SessionManager.

Inductive Keys : Type :=
| Text (s : str)
| ENTER.

Record Field := { send_keys : Keys -> result unit }.

(** What the login page answers to each call of [login_to_upwork]. *)
Record LoginPage := {
  get_login_page : result unit;
  window_handles : result (list N);
  switch_to_window : N -> result unit;
  username_field : result Field;
  password_field : result Field;
}.

(** A browser session: the driver probed by [is_driver_alive], what
    [quit()] answers, its login page and the listing pages it shows. *)
Record Session := {
  session_driver : Driver;
  quit : result unit;
  login_page : LoginPage;
  pages : Browser;
}.

(** The ways to launch a browser: [uc.Chrome(options, version_main)] at
    its k-th call in one run of [get_driver_with_retry],
    [os.path.exists], and [webdriver.Chrome(options)] with the binary
    location set or not. *)
Record Launcher := {
  uc_chrome : nat -> N -> result Session;
  path_exists : str -> bool;
  webdriver_chrome : option str -> result Session;
}.

Definition chrome_candidate_paths : list str :=
  [ lit "/Applications/Google Chrome.app/Contents/MacOS/Google Chrome";
    lit "/Applications/Google Chrome Beta.app/Contents/MacOS/Google Chrome Beta";
    lit "/Applications/Google Chrome Dev.app/Contents/MacOS/Google Chrome Dev";
    lit "/Applications/Google Chrome Canary.app/Contents/MacOS/Google Chrome Canary" ].

(** [for chrome_version in chrome_versions: try: return uc.Chrome(...)];
    [k] counts the launches made so far. *)
Fixpoint try_versions (L : Launcher) (k : nat) (chrome_versions : list N)
  : option Session * nat :=
  match chrome_versions with
  | [] => (None, k)
  | v :: vs =>
      match uc_chrome L k v with
      | Ok driver => (Some driver, S k)
      | Raise _ => try_versions L (S k) vs
      end
  end.

(** [for attempt in range(max_attempts): ...] *)
Fixpoint try_attempts (L : Launcher) (k : nat) (chrome_versions : list N) (attempts : nat)
  : option Session * nat :=
  match attempts with
  | O => (None, k)
  | S n =>
      match try_versions L k chrome_versions with
      | (Some driver, k') => (Some driver, k')
      | (None, k') => try_attempts L k' chrome_versions n
      end
  end.

(** The Selenium Manager fallback: the first candidate path that exists
    becomes the binary location; any exception gives [None]. *)
Definition selenium_fallback (L : Launcher) : option Session :=
  let binary_location := List.find (path_exists L) chrome_candidate_paths in
  match webdriver_chrome L binary_location with
  | Ok driver => Some driver
  | Raise _ => None
  end.

Definition get_driver_with_retry (L : Launcher) (chrome_versions : list N) (max_attempts : nat)
  : option Session :=
  match try_attempts L 0 chrome_versions max_attempts with
  | (Some driver, _) => Some driver
  | (None, _) => selenium_fallback L
  end.

(** What [login_to_upwork] did to the page before it returned. *)
Inductive LoginEvent : Type :=
| Navigated
| Slept (seconds : nat)
| Switched (handle : N)
| UsernameTyped
| UsernameEntered
| PasswordTyped
| PasswordEntered.

(** The first steps of a login: load the page, pause, switch to the
    window opened last ([all_windows[-1]] raises on an empty list).  The
    events are those of the steps that went through. *)
Definition open_login_page (page : LoginPage) : list LoginEvent * result unit :=
  match get_login_page page with
  | Raise e => ([], Raise e)
  | Ok _ =>
      match window_handles page with
      | Raise e => ([Navigated; Slept 25], Raise e)
      | Ok all_windows =>
          match List.last (List.map Some all_windows) None with
          | None => ([Navigated; Slept 25], Raise "IndexError"%string)
          | Some h =>
              match switch_to_window page h with
              | Raise e => ([Navigated; Slept 25], Raise e)
              | Ok _ => ([Navigated; Slept 25; Switched h], Ok ())
              end
          end
      end
  end.

(** The four field steps and the verification pause, each step leaving
    the [try] when it raises. *)
Definition submit_credentials (username password : str) (verification_pause : nat)
    (page : LoginPage) : list LoginEvent :=
  match (f ← username_field page; send_keys f (Text username)) with
  | Raise _ => []
  | Ok _ =>
  [UsernameTyped] ++
  match (f ← username_field page; send_keys f ENTER) with
  | Raise _ => []
  | Ok _ =>
  [UsernameEntered] ++
  match (f ← password_field page; send_keys f (Text password)) with
  | Raise _ => []
  | Ok _ =>
  [PasswordTyped] ++
  match (f ← password_field page; send_keys f ENTER) with
  | Raise _ => []
  | Ok _ => [PasswordEntered; Slept verification_pause]
  end end end end.

(** [login_to_upwork]: everything inside one [try/except], so that no
    exception leaves it. *)
Definition login_to_upwork (username password : str) (verification_pause : nat)
    (page : LoginPage) : list LoginEvent :=
  match open_login_page page with
  | (events, Raise _) => events
  | (events, Ok _) => events ++ submit_credentials username password verification_pause page
  end.

(** What happened to sessions in [recreate_driver_if_needed] and in
    [main]. *)
Inductive SessionEvent : Type :=
| QuitCalled
| Launched
| LoggedIn (events : list LoginEvent)
| SleptFor (seconds : nat).

(** [if current_driver: try: current_driver.quit() except: pass] *)
Definition quit_quietly (current_driver : option Session) : list SessionEvent :=
  match current_driver with
  | Some _ => [QuitCalled]
  | None => []
  end.

Section Recreate.

Variable L : Launcher.
Variable chrome_versions : list N.
Variable max_attempts : nat.
Variable username password : str.
Variable verification_pause : nat.

Definition recreate_driver_if_needed (current_driver : option Session)
  : result (option Session * list SessionEvent) :=
  alive ← (match current_driver with
           | Some s => is_driver_alive (Some (session_driver s))
           | None => Ok false
           end : result bool);
  if (alive : bool) then Ok (current_driver, [])
  else
    let new_driver := get_driver_with_retry L chrome_versions max_attempts in
    Ok (new_driver,
        quit_quietly current_driver ++ [Launched] ++
        match new_driver with
        | Some n =>
            [LoggedIn (login_to_upwork username password verification_pause (login_page n))]
        | None => []
        end).

End Recreate.

End SessionManager.

(** ** The main loop ([main])

    [main] runs until an exception leaves the loop, so only finitely many
    iterations of [while True] are followed: one launcher per iteration,
    standing for what launching a browser yields at that time. *)

Section Main.

Import SessionManager.

Variable datetime : Type.
Variable str_lower : str -> str.
Variable config : Config.
Variable generate_job_id : str -> str.
Variable clean_job_proposals : str -> result str.
Variable calculate_posted_datetime : str -> result (pyval datetime).
Variable clock : nat -> datetime.
Variable db_raises : statement datetime -> bool.

(** [config.CHROME_VERSIONS], [MAX_ATTEMPTS], the credentials,
    [VERIFICATION_PAUSE] and [SCRAPE_INTERVAL_MINUTES]. *)
Variable chrome_versions : list N.
Variable max_attempts : nat.
Variable username password : str.
Variable verification_pause : nat.
Variable scrape_interval_minutes : nat.

(** How [main] ended, if it did: with a [return] (of [False], or of
    nothing), or with an exception raised in its [finally] block. *)
Inductive MainResult : Type :=
| StillRunning (driver : option Session)
| Returned (value : option bool)
| Raised (e : exn).

(** The iterations of [while True]. *)
Fixpoint main_loop (driver : option Session) (iterations : list Launcher)
    (w : World datetime) : MainResult * list SessionEvent * World datetime :=
  match iterations with
  | [] => (StillRunning driver, [], w)
  | L :: rest =>
      let closing := quit_quietly driver in
      match get_driver_with_retry L chrome_versions max_attempts with
      | None =>
          let '(r, events, w') := main_loop None rest w in
          (r, closing ++ [Launched; SleptFor 30] ++ events, w')
      | Some s =>
          let started :=
            [Launched;
             LoggedIn (login_to_upwork username password verification_pause (login_page s))] in
          let '(outcome, w') :=
            scrape_cycle str_lower config generate_job_id clean_job_proposals
              calculate_posted_datetime clock db_raises (pages s) w in
          match outcome with
          | Raise e => (Returned (Some false), closing ++ started, w')
          | Ok _ =>
              let '(r, events, w'') := main_loop None rest w' in
              (r,
               closing ++ started ++
               [QuitCalled; SleptFor (scrape_interval_minutes * 60)] ++ events,
               w'')
          end
      end
  end.

(** [main]: [connect_to_db] and [create_db] come first; an exception of
    [connect_to_db] leaves [cursor] unbound, and the [finally] block then
    raises on [cursor.close()].  The first launch is followed by a login
    whose opening steps are outside any [try]. *)
Definition main (connect_to_db create_db : result unit) (first : Launcher)
    (iterations : list Launcher) (w : World datetime)
  : MainResult * list SessionEvent * World datetime :=
  match connect_to_db with
  | Raise _ => (Raised "UnboundLocalError"%string, [], w)
  | Ok _ =>
      match create_db with
      | Raise _ => (Returned (Some false), [], w)
      | Ok _ =>
          match get_driver_with_retry first chrome_versions max_attempts with
          | None => (Returned None, [Launched], w)
          | Some s =>
              match open_login_page (login_page s) with
              | (events, Raise _) =>
                  (Returned (Some false), [Launched; LoggedIn events], w)
              | (events, Ok _) =>
                  let '(r, later, w') := main_loop (Some s) iterations w in
                  (r,
                   [Launched;
                    LoggedIn (events ++
                              submit_credentials username password verification_pause
                                (login_page s))] ++ later,
                   w')
              end
          end
      end
  end.

End Main.

(** * Properties *)

(** ** Strings *)

Section SplitFacts.

Variable sep : str.

Lemma startswith_spec (p s : str) :
  startswith p s = true <-> exists r, s = p ++ r.
Proof.
  revert s; induction p as [|a p IH]; intros s; simpl.
  - split; eauto.
  - destruct s as [|b s]; simpl.
    + split; [discriminate | intros [r Hr]; discriminate].
    + rewrite andb_true_iff, N.eqb_eq, IH. split.
      * intros [-> [r ->]]. eauto.
      * intros [r Hr]. injection Hr as -> ->. eauto.
Qed.

Lemma split_go_not_nil (k : nat) (s : str) : split_go sep k s <> [].
Proof.
  revert k; induction s as [|c s IH]; intros k; simpl; [discriminate|].
  destruct k; [|apply IH].
  destruct (startswith sep (c :: s)); [discriminate|].
  destruct (split_go sep 0 s); discriminate.
Qed.

Lemma first_piece_nil : first_piece sep [] = [].
Proof. reflexivity. Qed.

Lemma first_piece_cons (c : N) (s : str) :
  first_piece sep (c :: s) =
    if startswith sep (c :: s) then [] else c :: first_piece sep s.
Proof.
  unfold first_piece, split. cbn [split_go].
  destruct (startswith sep (c :: s)); [reflexivity|].
  pose proof (split_go_not_nil 0 s) as Hne.
  destruct (split_go sep 0 s); [contradiction | reflexivity].
Qed.

Lemma first_piece_is_prefix (s : str) : exists r, s = first_piece sep s ++ r.
Proof.
  induction s as [|c s [r IH]].
  - exists []. reflexivity.
  - rewrite first_piece_cons. destruct (startswith sep (c :: s)).
    + exists (c :: s). reflexivity.
    + exists r. simpl. congruence.
Qed.

Lemma first_piece_idem (s : str) : first_piece sep (first_piece sep s) = first_piece sep s.
Proof.
  induction s as [|c s IH]; [reflexivity|].
  rewrite first_piece_cons.
  destruct (startswith sep (c :: s)) eqn:Hs; [reflexivity|].
  rewrite first_piece_cons.
  destruct (startswith sep (c :: first_piece sep s)) eqn:Hp.
  - apply startswith_spec in Hp as [r Hr].
    destruct (first_piece_is_prefix s) as [r' Hr'].
    assert (startswith sep (c :: s) = true) as Hc; [|congruence].
    apply startswith_spec. exists (r ++ r').
    rewrite app_assoc, <- Hr. simpl. congruence.
  - congruence.
Qed.

(** Either [sep] does not occur and the first piece is the whole
    string, or the first piece ends where the leftmost occurrence
    starts. *)
Lemma first_piece_spec (s : str) :
  sep <> [] ->
  (first_piece sep s = s /\ forall p r, s <> p ++ sep ++ r) \/
  (exists rest, s = first_piece sep s ++ sep ++ rest /\
     forall p r, s = p ++ sep ++ r -> length (first_piece sep s) <= length p).
Proof.
  intros Hsep. induction s as [|c s IH].
  - left. split; [reflexivity|]. intros p r H.
    destruct p; [destruct sep|]; simpl in H; congruence.
  - rewrite first_piece_cons. destruct (startswith sep (c :: s)) eqn:Hs.
    + right. apply startswith_spec in Hs as [r Hr]. exists r.
      split; [exact Hr | intros; simpl; lia].
    + assert (forall r, c :: s <> sep ++ r) as Hno.
      { intros r Hr. assert (startswith sep (c :: s) = true); [|congruence].
        apply startswith_spec. eauto. }
      destruct IH as [[Hfp Hnone] | [rest [Hrest Hmin]]].
      * left. split; [congruence|]. intros [|a p] r H.
        -- exact (Hno r H).
        -- injection H as _ H. exact (Hnone p r H).
      * right. exists rest. split; [simpl; congruence|].
        intros [|a p] r H.
        -- exfalso. exact (Hno r H).
        -- injection H as _ H. simpl. apply Hmin in H. lia.
Qed.

End SplitFacts.

(** C5: for a URL that contains ["/?"], canonicalisation returns exactly
    the part before the leftmost ["/?"] (everything from it onward is
    removed); and for every URL canonicalising twice is the same as
    canonicalising once. *)
Theorem canonical_url_strips_query_and_is_idempotent (u : str) :
  ((exists p r, u = p ++ lit "/?" ++ r) ->
   exists pre rest,
     u = pre ++ lit "/?" ++ rest /\
     canonical_url u = pre /\
     forall p r, u = p ++ lit "/?" ++ r -> length pre <= length p) /\
  canonical_url (canonical_url u) = canonical_url u.
Proof.
  split.
  - intros [p [r Hocc]].
    destruct (first_piece_spec (lit "/?") u) as [[_ Hnone] | [rest [Hrest Hmin]]].
    + discriminate.
    + exfalso. exact (Hnone p r Hocc).
    + exists (canonical_url u), rest. auto.
  - apply first_piece_idem.
Qed.

Example canonical_url_ex1 :
  canonical_url (lit "https://u.com/jobs/a_~01/?referrer=x/?y") = lit "https://u.com/jobs/a_~01".
Proof. reflexivity. Qed.

Example canonical_url_ex2 : canonical_url (lit "https://u.com/jobs/a?x=1") = lit "https://u.com/jobs/a?x=1".
Proof. reflexivity. Qed.

Example split_ex1 : split (lit "/?") (lit "a/?b/?/?c/") = [lit "a"; lit "b"; []; lit "c/"].
Proof. reflexivity. Qed.

Example strip_ex1 : strip (lit "  a b  ") = lit "a b".
Proof. reflexivity. Qed.

(** ** Notification text *)

Section TelegramFacts.

Variable datetime : Type.
Variable strftime_short : datetime -> str.
Variable fromisoformat : str -> result datetime.

Let header (job : Job datetime) : str :=
  separator ++ newline ++
  _val (job_title job) ++ newline ++ separator ++ newline ++
  _val (job_url job) ++ newline ++ separator ++ newline ++
  _short_date strftime_short fromisoformat (posted_date job) ++ newline ++
  separator ++ newline.

Lemma format_job_message_unfold (job : Job datetime) :
  format_job_message strftime_short fromisoformat job =
    header job ++ truncate_description (_val (job_description job)) ++
    newline ++ separator.
Proof.
  unfold format_job_message, message_lines, header. cbn [join].
  repeat (rewrite <- ?app_assoc; simpl). reflexivity.
Qed.

(** The truncation rule of [format_job_message]: a description longer
    than 800 characters appears in the message as its first 800
    characters followed once by [ellipsis_marker], the three-character
    literal of the source; a description of at most 800 characters
    appears unchanged. *)
Theorem format_job_message_truncates_description (job : Job datetime) :
  let d := _val (job_description job) in
  (800 < length d ->
     format_job_message strftime_short fromisoformat job =
       header job ++ (take 800 d ++ ellipsis_marker) ++ newline ++ separator /\
     length (take 800 d) = 800) /\
  (length d = 900 ->
     truncate_description d = take 800 d ++ ellipsis_marker /\
     length (truncate_description d) = 800 + length ellipsis_marker) /\
  (length d <= 800 ->
     format_job_message strftime_short fromisoformat job =
       header job ++ d ++ newline ++ separator).
Proof.
  intros d. rewrite format_job_message_unfold. fold d.
  unfold truncate_description.
  split; [|split]; intros Hlen.
  - assert ((800 <? length d) = true) as -> by (apply Nat.ltb_lt; lia).
    split; [reflexivity|]. rewrite length_take. lia.
  - assert ((800 <? length d) = true) as -> by (apply Nat.ltb_lt; lia).
    split; [reflexivity|]. rewrite length_app, length_take. lia.
  - assert ((800 <? length d) = false) as -> by (apply Nat.ltb_ge; lia).
    reflexivity.
Qed.

(** C8, as the code has it: the message is the nine lines separator,
    title, separator, URL, separator, short date, separator,
    description (truncated as in C4), separator; the date line is the
    [strftime] text of a datetime or of a string that parses as an ISO
    date, is empty when the date is absent, and is otherwise the string
    cut to 16 characters. *)
Theorem format_job_message_lines (job : Job datetime) :
  format_job_message strftime_short fromisoformat job =
    join newline
      [ separator;
        _val (job_title job);
        separator;
        _val (job_url job);
        separator;
        _short_date strftime_short fromisoformat (posted_date job);
        separator;
        truncate_description (_val (job_description job));
        separator ] /\
  (forall d, posted_date job = VDatetime d ->
     _short_date strftime_short fromisoformat (posted_date job) = strftime_short d) /\
  (posted_date job = VNone ->
     _short_date strftime_short fromisoformat (posted_date job) = []) /\
  (forall s dt, posted_date job = VStr s -> truthy s = true ->
     fromisoformat (remove_char 90%N s) = Ok dt ->
     _short_date strftime_short fromisoformat (posted_date job) = strftime_short dt) /\
  (forall s e, posted_date job = VStr s ->
     fromisoformat (remove_char 90%N s) = Raise e ->
     _short_date strftime_short fromisoformat (posted_date job) =
       if 16 <=? length s then take 16 s else s).
Proof.
  split; [|split; [|split; [|split]]].
  - unfold format_job_message, message_lines. cbn [join].
    repeat (rewrite <- ?app_assoc; simpl). reflexivity.
  - intros d ->. reflexivity.
  - intros ->. reflexivity.
  - intros s dt -> Hs Hiso. simpl. rewrite Hs, Hiso. reflexivity.
  - intros s e -> Hiso. simpl. rewrite Hiso. destruct s; reflexivity.
Qed.

End TelegramFacts.

(** A job with every field set, dated by a clock that prints one text. *)
Definition sample_job : Job N :=
  {| job_id := Some (lit "id1");
     job_url := Some (lit "https://u.com/jobs/a");
     job_title := Some (lit "Rocq developer");
     posted_date := VDatetime 0%N;
     job_description := Some (lit "Prove things.");
     job_tags := Some (lit "[]");
     job_proposals := Some (lit "5 to 10") |}.

Definition sample_strftime (_ : N) : str := lit "2024-05-01 10:30".
Definition sample_fromisoformat (_ : str) : result N := Raise "ValueError"%string.

Example format_job_message_sample :
  format_job_message sample_strftime sample_fromisoformat sample_job =
    lit "---" ++ newline ++ lit "Rocq developer" ++ newline ++ lit "---" ++ newline ++
    lit "https://u.com/jobs/a" ++ newline ++ lit "---" ++ newline ++
    lit "2024-05-01 10:30" ++ newline ++ lit "---" ++ newline ++
    lit "Prove things." ++ newline ++ lit "---".
Proof. reflexivity. Qed.

(** A description of 900 characters. *)
Example truncate_description_900 :
  truncate_description (replicate 900 97%N) = replicate 800 97%N ++ ellipsis_marker /\
  length (truncate_description (replicate 900 97%N)) = 803.
Proof. split; vm_compute; reflexivity. Qed.

(** A job whose description has 900 characters. *)
Definition long_description : str := replicate 900 97%N.

Definition long_job : Job N :=
  {| job_id := Some (lit "id2");
     job_url := Some (lit "https://u.com/jobs/l");
     job_title := Some (lit "Long job");
     posted_date := VNone;
     job_description := Some long_description;
     job_tags := Some (lit "[]");
     job_proposals := Some [] |}.

(** C4, at a description of 900 characters.  The literal the code
    appends is not an ellipsis: it is the three code points U+00E2
    U+20AC U+00A6, the bytes of U+2026 read in another encoding.  The
    shown description is the first 800 characters followed by these
    three, 803 code points in all, and differs from the first 800
    characters followed by the single ellipsis character; the message
    carries it between the last inner separator and the closing one. *)
Lemma truncated_description_ends_in_three_code_points :
  truncate_description long_description =
    take 800 long_description ++ [226; 8364; 166]%N /\
  length (truncate_description long_description) = 803 /\
  truncate_description long_description <> take 800 long_description ++ [8230]%N /\
  format_job_message sample_strftime sample_fromisoformat long_job =
    lit "---" ++ newline ++ lit "Long job" ++ newline ++ lit "---" ++ newline ++
    lit "https://u.com/jobs/l" ++ newline ++ lit "---" ++ newline ++
    [] ++ newline ++ lit "---" ++ newline ++
    (replicate 800 97%N ++ [226; 8364; 166]%N) ++ newline ++ lit "---".
Proof.
  split; [vm_compute; reflexivity|].
  split; [vm_compute; reflexivity|].
  split; [|vm_compute; reflexivity].
  intros H. apply (f_equal length) in H. vm_compute in H. discriminate.
Qed.

(** C8, as stated: on [sample_job] the message is not the seven lines
    alone; it carries a separator line before the title and one after the
    description. *)
Lemma format_job_message_has_outer_separators :
  format_job_message sample_strftime sample_fromisoformat sample_job <>
    message_as_specified sample_strftime sample_fromisoformat sample_job /\
  length (split newline
            (format_job_message sample_strftime sample_fromisoformat sample_job)) = 9 /\
  length (split newline
            (message_as_specified sample_strftime sample_fromisoformat sample_job)) = 7.
Proof. split; [discriminate | split; reflexivity]. Qed.

(** ** Session probe *)

(** C9: [is_driver_alive] always returns a boolean and never raises:
    [True] when the no-op script runs, [False] when running it raises,
    whatever the exception, and [False] for a handle that is [None]. *)
Theorem is_driver_alive_total (current_driver : option Driver) :
  (exists b, is_driver_alive current_driver = Ok b) /\
  (forall d, current_driver = Some d ->
     execute_script d (lit "return 1") = Ok () ->
     is_driver_alive current_driver = Ok true) /\
  (forall d e, current_driver = Some d ->
     execute_script d (lit "return 1") = Raise e ->
     is_driver_alive current_driver = Ok false) /\
  (current_driver = None -> is_driver_alive current_driver = Ok false).
Proof.
  unfold is_driver_alive.
  split; [|split; [|split]].
  - destruct current_driver as [d|]; simpl; [|eauto].
    destruct (execute_script d (lit "return 1")); simpl; eauto.
  - intros d -> H. rewrite H. reflexivity.
  - intros d e -> H. rewrite H. reflexivity.
  - intros ->. reflexivity.
Qed.

(** ** Extraction passes *)

(** What both loop bodies have in common: a step leaves the state as it
    is, or records one URL that was not seen before and appends at most
    one entry, which carries that URL. *)
Definition dedup_step {T} (step : gset str * list Entry -> T -> gset str * list Entry) : Prop :=
  forall seen es x,
    step (seen, es) x = (seen, es) \/
    exists u, (u ∉ seen) /\
      (step (seen, es) x = ({[u]} ∪ seen, es) \/
       exists e, url e = u /\ step (seen, es) x = ({[u]} ∪ seen, es ++ [e])).

Section DedupLoop.

Context {T : Type} (step : gset str * list Entry -> T -> gset str * list Entry).
Hypothesis step_dedup : dedup_step step.

(** Emitted URLs are pairwise distinct and all recorded as seen. *)
Definition urls_tracked (st : gset str * list Entry) : Prop :=
  NoDup (List.map url st.2) /\ forall e, e ∈ st.2 -> url e ∈ st.1.

Lemma urls_tracked_step st x : urls_tracked st -> urls_tracked (step st x).
Proof.
  destruct st as [seen es]. intros [Hnd Hin].
  destruct (step_dedup seen es x) as [-> | [u [Hu [-> | [e [He ->]]]]]].
  - split; assumption.
  - split; [assumption|]. simpl in *. intros e He. specialize (Hin e He). set_solver.
  - split; simpl in *.
    + rewrite map_app. simpl. apply NoDup_app. split; [assumption|].
      split; [|apply NoDup_singleton].
      intros v Hv Hv'. apply list_elem_of_singleton in Hv'. subst v.
      apply list_elem_of_fmap in Hv as [e' [Heq He']].
      apply Hu. rewrite <- He, Heq. auto.
    + intros e' He'. apply elem_of_app in He' as [He' | He'].
      * specialize (Hin e' He'). set_solver.
      * apply list_elem_of_singleton in He'. subst e'. set_solver.
Qed.

Lemma urls_tracked_foldl xs st : urls_tracked st -> urls_tracked (foldl step st xs).
Proof.
  revert st; induction xs as [|x xs IH]; intros st H; simpl; [assumption|].
  apply IH, urls_tracked_step, H.
Qed.

(** A URL that is seen and has no entry never gets one. *)
Definition url_blocked (u : str) (st : gset str * list Entry) : Prop :=
  u ∈ st.1 /\ forall e, e ∈ st.2 -> url e <> u.

Lemma url_blocked_step u st x : url_blocked u st -> url_blocked u (step st x).
Proof.
  destruct st as [seen es]. intros [Hu Hno].
  destruct (step_dedup seen es x) as [-> | [v [Hv [-> | [e [He ->]]]]]].
  - split; assumption.
  - split; simpl in *; [set_solver | assumption].
  - split; simpl in *; [set_solver|].
    intros e' He'. apply elem_of_app in He' as [He' | He'].
    + auto.
    + apply list_elem_of_singleton in He'. subst e'. congruence.
Qed.

Lemma url_blocked_foldl u xs st : url_blocked u st -> url_blocked u (foldl step st xs).
Proof.
  revert st; induction xs as [|x xs IH]; intros st H; simpl; [assumption|].
  apply IH, url_blocked_step, H.
Qed.

Lemma filter_url_absent (es : list Entry) (u : str) :
  u ∉ List.map url es ->
  List.filter (fun e => bool_decide (url e = u)) es = [].
Proof.
  induction es as [|e es IH]; simpl; [reflexivity|].
  intros Hnotin. apply not_elem_of_cons in Hnotin as [Hne Hnotin].
  rewrite bool_decide_eq_false_2 by congruence. auto.
Qed.

Lemma nodup_count (es : list Entry) (u : str) :
  NoDup (List.map url es) ->
  length (List.filter (fun e => bool_decide (url e = u)) es) <= 1.
Proof.
  induction es as [|e es IH]; simpl; [lia|].
  intros Hnd. apply NoDup_cons in Hnd as [Hnotin Hnd].
  case_bool_decide as Heq; simpl; [|auto].
  subst u. rewrite filter_url_absent by assumption. simpl. lia.
Qed.

End DedupLoop.

Section ExtractorFacts.

Variable str_lower : str -> str.
Variable config : Config.

Local Abbreviation banned_list := (getattr_list (BANNED_COUNTRIES config)).

Lemma collect_link_dedup : dedup_step (collect_link str_lower config).
Proof.
  intros seen es link. unfold collect_link.
  destruct (href link) as [h|]; [|by left].
  destruct (negb (truthy (or_empty h))); [by left|].
  destruct (denylisted (or_empty h)); [by left|].
  destruct (anchor_text link) as [t|]; [|by left].
  destruct (negb (truthy (strip t))); [by left|].
  case_bool_decide as Hseen; [by left|].
  right. exists (canonical_url (or_empty h)). split; [assumption|].
  destruct (container_fields link (strip t)) as [[d p] po].
  destruct (truthy d && _); [by left|].
  right. eexists. split; [|reflexivity]. reflexivity.
Qed.

Lemma scrape_tile_dedup : dedup_step (scrape_tile str_lower config).
Proof.
  intros seen es tile. unfold scrape_tile, scrape_tile_body.
  destruct (_ ← title_link tile; _) as [[href0 title_]|]; [|by left].
  destruct (negb (truthy href0) || negb (truthy title_)); [by left|].
  destruct (denylisted href0); [by left|].
  case_bool_decide as Hseen; [by left|].
  right. exists (canonical_url href0). split; [assumption|].
  destruct (if truthy_list _ then _ else _) as [[]|]; simpl; [|by left].
  destruct (if truthy _ && _ then _ else _) as [[]|]; simpl; [|by left].
  right. eexists. split; [|reflexivity]. reflexivity.
Qed.

Lemma urls_tracked_init : urls_tracked (∅, []).
Proof. split; simpl; [constructor | intros e He; inversion He]. Qed.

(** C6: in the output of a pass, loose or structured, at most one
    record carries any given URL; the URLs of the records are pairwise
    distinct.  Two raw entries with one canonical URL therefore give at
    most one record. *)
Theorem pass_emits_each_url_once (raw_links : list Anchor) (tiles : list Tile) (u : str) :
  NoDup (List.map url (collect_job_entries str_lower config raw_links)) /\
  length (List.filter (fun e => bool_decide (url e = u))
            (collect_job_entries str_lower config raw_links)) <= 1 /\
  exists search_entries,
    scrape_search_page str_lower config (Ok tiles) = Ok search_entries /\
    NoDup (List.map url search_entries) /\
    length (List.filter (fun e => bool_decide (url e = u)) search_entries) <= 1.
Proof.
  assert (NoDup (List.map url (collect_job_entries str_lower config raw_links))) as Hl.
  { apply (urls_tracked_foldl _ collect_link_dedup raw_links _ urls_tracked_init). }
  assert (NoDup (List.map url (scrape_tiles_from str_lower config (∅, []) tiles).2)) as Hs.
  { apply (urls_tracked_foldl _ scrape_tile_dedup tiles _ urls_tracked_init). }
  split; [exact Hl|]. split; [apply nodup_count, Hl|].
  eexists. split; [reflexivity|]. split; [exact Hs | apply nodup_count, Hs].
Qed.

(** *** Titles *)

Lemma lstrip_blank (t : str) : forallb is_space t = true -> lstrip t = [].
Proof.
  induction t as [|c t IH]; simpl; [reflexivity|].
  intros H. apply andb_true_iff in H as [-> H]. auto.
Qed.

Lemma strip_blank (t : str) : forallb is_space t = true -> strip t = [].
Proof. intros H. unfold strip, rstrip. rewrite (lstrip_blank t H). reflexivity. Qed.

(** C7: an anchor, or the title link of a tile, whose visible text is
    empty or consists of white space only adds no record; the loop
    state is left as it was. *)
Theorem blank_title_emits_no_record
    (st : gset str * list Entry) (link : Anchor) (tile : Tile) (tl : TitleLink) (t : str) :
  forallb is_space t = true ->
  (anchor_text link = Ok t -> collect_link str_lower config st link = st) /\
  (title_link tile = Ok tl -> title_text tl = Ok t ->
   scrape_tile str_lower config st tile = st).
Proof.
  intros Hblank. pose proof (strip_blank t Hblank) as Hstrip.
  destruct st as [seen es]. split.
  - intros Ht. unfold collect_link. rewrite Ht, Hstrip. simpl.
    destruct (href link) as [h|]; [|reflexivity].
    destruct (negb (truthy (or_empty h))); [reflexivity|].
    destruct (denylisted (or_empty h)); reflexivity.
  - intros Htl Ht. unfold scrape_tile, scrape_tile_body. rewrite Htl. simpl.
    destruct (title_href tl) as [h|]; simpl; [|reflexivity].
    rewrite Ht. simpl. rewrite Hstrip. simpl.
    rewrite orb_true_r. reflexivity.
Qed.

(** *** The banned-locale filter of the loose pass *)

(** An anchor that gets as far as the filter and is refused by it:
    its URL is recorded, no entry is appended. *)
Lemma collect_link_banned seen es link h t d p po :
  href link = Ok (Some h) -> truthy h = true -> denylisted h = false ->
  anchor_text link = Ok t -> truthy (strip t) = true ->
  canonical_url h ∉ seen ->
  container_fields link (strip t) = (d, p, po) ->
  truthy d = true ->
  mentions_banned str_lower banned_list (str_lower d) = true ->
  collect_link str_lower config (seen, es) link = ({[canonical_url h]} ∪ seen, es).
Proof.
  intros Hh Hth Hdl Ht Htt Hseen Hc Hd Hb. unfold collect_link.
  rewrite Hh. simpl. rewrite Hth, Hdl, Ht, Htt. simpl.
  rewrite bool_decide_eq_false_2 by assumption.
  rewrite Hc, Hd. rewrite Hb. reflexivity.
Qed.

(** An anchor whose canonical URL was seen before changes nothing. *)
Lemma collect_link_seen seen es link :
  (forall h, href link = Ok h -> canonical_url (or_empty h) ∈ seen) ->
  collect_link str_lower config (seen, es) link = (seen, es).
Proof.
  intros Hu. unfold collect_link.
  destruct (href link) as [h|]; [|reflexivity].
  specialize (Hu h eq_refl).
  destruct (negb (truthy (or_empty h))); [reflexivity|].
  destruct (denylisted (or_empty h)); [reflexivity|].
  destruct (anchor_text link) as [t|]; [|reflexivity].
  destruct (negb (truthy (strip t))); [reflexivity|].
  rewrite bool_decide_eq_true_2 by assumption. reflexivity.
Qed.

(** C10: in the loose pass an anchor refused by the banned-locale
    filter has its canonical URL recorded as seen all the same; every
    later anchor of the pass with that canonical URL is dropped without
    changing the state, and no record of the pass carries that URL. *)
Theorem banned_anchor_blocks_its_url
    (pre post : list Anchor) (x : Anchor) (h t d p po : str) :
  href x = Ok (Some h) -> truthy h = true -> denylisted h = false ->
  anchor_text x = Ok t -> truthy (strip t) = true ->
  canonical_url h ∉ (collect_links_from str_lower config (∅, []) pre).1 ->
  container_fields x (strip t) = (d, p, po) ->
  truthy d = true ->
  mentions_banned str_lower (getattr_list (BANNED_COUNTRIES config)) (str_lower d) = true ->
  let before := collect_links_from str_lower config (∅, []) pre in
  collect_link str_lower config before x = ({[canonical_url h]} ∪ before.1, before.2) /\
  (forall mid y rest,
     post = mid ++ y :: rest ->
     (forall hy, href y = Ok hy -> canonical_url (or_empty hy) = canonical_url h) ->
     let st := collect_links_from str_lower config (∅, []) (pre ++ x :: mid) in
     collect_link str_lower config st y = st) /\
  (forall e, e ∈ collect_job_entries str_lower config (pre ++ x :: post) ->
     url e <> canonical_url h).
Proof.
  intros Hh Hth Hdl Ht Htt Hseen Hc Hd Hb before.
  assert (collect_link str_lower config before x =
            ({[canonical_url h]} ∪ before.1, before.2)) as Hx.
  { subst before. destruct (collect_links_from str_lower config (∅, []) pre) as [seen es].
    simpl in *. exact (collect_link_banned seen es x h t d p po Hh Hth Hdl Ht Htt Hseen Hc Hd Hb). }
  assert (url_blocked (canonical_url h) (collect_link str_lower config before x)) as Hblock.
  { rewrite Hx. split; simpl; [set_solver|].
    intros e He Hu.
    assert (urls_tracked before) as [_ Hin].
    { apply (urls_tracked_foldl _ collect_link_dedup pre _ urls_tracked_init). }
    apply Hseen. rewrite <- Hu. auto. }
  assert (forall ys, collect_links_from str_lower config (∅, []) (pre ++ x :: ys) =
                     foldl (collect_link str_lower config)
                       (collect_link str_lower config before x) ys) as Hsplit.
  { intros ys. unfold collect_links_from, before. rewrite foldl_app. reflexivity. }
  split; [exact Hx|]. split.
  - intros mid y rest _ Hy st. subst st. rewrite Hsplit.
    pose proof (url_blocked_foldl _ collect_link_dedup _ mid _ Hblock) as [Hin _].
    destruct (foldl _ _ mid) as [seen es]. apply collect_link_seen.
    intros hy Hhy. rewrite (Hy hy Hhy). exact Hin.
  - intros e He. unfold collect_job_entries in He. rewrite Hsplit in He.
    pose proof (url_blocked_foldl _ collect_link_dedup _ post _ Hblock) as [_ Hno].
    auto.
Qed.

(** *** What the filters refuse, in both passes *)

(** A description the description filter lets through. *)
Definition description_clean (d : str) : Prop :=
  truthy d && mentions_banned str_lower banned_list (str_lower d) = false.

(** A record of the structured pass: composed from client parts and a
    raw description that passed both filters. *)
Definition composed_clean (e : Entry) : Prop :=
  exists client_parts proposals_text description_text,
    description e = compose_description client_parts proposals_text description_text /\
    description_clean description_text /\
    client_banned str_lower banned_list client_parts = false.

Lemma foldl_entries_forall {T} (step : gset str * list Entry -> T -> gset str * list Entry)
    (P : Entry -> Prop) :
  (forall st x, Forall P st.2 -> Forall P (step st x).2) ->
  forall xs st, Forall P st.2 -> Forall P (foldl step st xs).2.
Proof.
  intros Hstep xs. induction xs as [|x xs IH]; intros st H; simpl; [assumption|].
  apply IH, Hstep, H.
Qed.

Lemma collect_link_refuses_banned st link t d p po :
  anchor_text link = Ok t ->
  container_fields link (strip t) = (d, p, po) ->
  truthy d = true ->
  mentions_banned str_lower banned_list (str_lower d) = true ->
  (collect_link str_lower config st link).2 = st.2.
Proof.
  intros Ht Hc Hd Hb. destruct st as [seen es]. unfold collect_link.
  destruct (href link) as [h|]; [|reflexivity].
  destruct (negb (truthy (or_empty h))); [reflexivity|].
  destruct (denylisted (or_empty h)); [reflexivity|].
  rewrite Ht. destruct (negb (truthy (strip t))); [reflexivity|].
  case_bool_decide; [reflexivity|].
  rewrite Hc, Hd. rewrite Hb. reflexivity.
Qed.

Lemma collect_link_clean st link :
  Forall (fun e => description_clean (description e)) st.2 ->
  Forall (fun e => description_clean (description e))
         (collect_link str_lower config st link).2.
Proof.
  destruct st as [seen es]. intros H. unfold collect_link.
  destruct (href link) as [h|]; [|assumption].
  destruct (negb (truthy (or_empty h))); [assumption|].
  destruct (denylisted (or_empty h)); [assumption|].
  destruct (anchor_text link) as [t|]; [|assumption].
  destruct (negb (truthy (strip t))); [assumption|].
  case_bool_decide; [assumption|].
  destruct (container_fields link (strip t)) as [[d p] po].
  destruct (truthy d && _) eqn:Hb; [assumption|].
  simpl. apply Forall_app. split; [assumption|].
  constructor; [|constructor]. exact Hb.
Qed.

Lemma client_banned_nonempty banned client_parts :
  client_banned str_lower banned client_parts = true -> truthy_list client_parts = true.
Proof.
  destruct client_parts; [|reflexivity]. unfold client_banned.
  induction (List.map str_lower banned); simpl; auto.
Qed.

Lemma scrape_tile_refuses_banned st tile :
  (truthy (tile_description_text tile) = true /\
   mentions_banned str_lower banned_list (str_lower (tile_description_text tile)) = true) \/
  (exists banned, BANNED_COUNTRIES config = Some banned /\
     client_banned str_lower banned (client_parts_of tile) = true) ->
  (scrape_tile str_lower config st tile).2 = st.2.
Proof.
  intros Hban. destruct st as [seen es]. unfold scrape_tile, scrape_tile_body.
  destruct (_ ← title_link tile; _) as [[href0 title_]|]; [|reflexivity].
  destruct (negb (truthy href0) || negb (truthy title_)); [reflexivity|].
  destruct (denylisted href0); [reflexivity|].
  case_bool_decide; [reflexivity|].
  destruct Hban as [[Hd Hb] | [banned [Hcfg Hb]]].
  - rewrite Hd, Hb. simpl.
    destruct (if truthy_list _ then _ else _) as [[]|]; reflexivity.
  - rewrite (client_banned_nonempty _ _ Hb), Hcfg. simpl. rewrite Hb. reflexivity.
Qed.

Lemma scrape_tile_clean st tile :
  Forall composed_clean st.2 ->
  Forall composed_clean (scrape_tile str_lower config st tile).2.
Proof.
  destruct st as [seen es]. intros H. unfold scrape_tile, scrape_tile_body.
  destruct (_ ← title_link tile; _) as [[href0 title_]|]; [|assumption].
  destruct (negb (truthy href0) || negb (truthy title_)); [assumption|].
  destruct (denylisted href0); [assumption|].
  case_bool_decide; [assumption|].
  destruct (if truthy_list _ then _ else _) as [[]|] eqn:Hclient; simpl; [|assumption].
  destruct (truthy (tile_description_text tile) && _) eqn:Hdesc; simpl; [assumption|].
  apply Forall_app. split; [assumption|]. constructor; [|constructor].
  eexists _, _, _. split; [reflexivity|]. split; [exact Hdesc|].
  destruct (truthy_list (client_parts_of tile)) eqn:Hne.
  - destruct (BANNED_COUNTRIES config) as [banned|]; simpl in *; [|discriminate].
    destruct (client_banned str_lower banned (client_parts_of tile)); [discriminate | reflexivity].
  - destruct (client_parts_of tile); [|discriminate].
    unfold client_banned. induction (List.map str_lower _); simpl; auto.
Qed.

End ExtractorFacts.

(** ** Persist and notify *)

Section CycleFacts.

Variable datetime : Type.
Variable str_lower : str -> str.
Variable config : Config.
Variable generate_job_id : str -> str.
Variable clean_job_proposals : str -> result str.
Variable calculate_posted_datetime : str -> result (pyval datetime).
Variable clock : nat -> datetime.
Variable db_raises : statement datetime -> bool.

Local Abbreviation persist_entry' :=
  (persist_entry generate_job_id clean_job_proposals
     calculate_posted_datetime clock db_raises).
Local Abbreviation persist_entries' :=
  (persist_entries generate_job_id clean_job_proposals
     calculate_posted_datetime clock db_raises).
Local Abbreviation visit_search_pages' :=
  (visit_search_pages str_lower config generate_job_id clean_job_proposals
     calculate_posted_datetime clock db_raises).
Local Abbreviation scrape_cycle' :=
  (scrape_cycle str_lower config generate_job_id clean_job_proposals
     calculate_posted_datetime clock db_raises).

(** [job_proposals] as the loop body computes it. *)
Definition cleaned_proposals (entry : Entry) : str :=
  if truthy (proposals entry)
  then try_or [] (clean_job_proposals (proposals entry))
  else [].

(** Two rows that agree on everything but [job_proposals] and
    [updated_at]. *)
Definition same_but_proposals (r0 r1 : Row datetime) : Prop :=
  row_job_id r1 = row_job_id r0 /\
  row_job_url r1 = row_job_url r0 /\
  row_job_title r1 = row_job_title r0 /\
  row_posted_date r1 = row_posted_date r0 /\
  row_job_description r1 = row_job_description r0 /\
  row_job_tags r1 = row_job_tags r0.

Lemma update_rows_frame (id p : str) (t : datetime) (rows : list (Row datetime)) :
  Forall2 (fun r0 r1 => same_but_proposals r0 r1 /\ (row_job_id r0 <> id -> r1 = r0))
    rows
    (List.map (fun r => if has_id id r then set_proposals p t r else r) rows).
Proof.
  induction rows as [|r rows IH]; simpl; constructor; [|exact IH].
  unfold has_id. case_bool_decide as Hid.
  - split; [repeat split | intros Hne; contradiction].
  - split; [repeat split | reflexivity].
Qed.

Lemma rows_frame_refl (id : str) (rows : list (Row datetime)) :
  Forall2 (fun r0 r1 => same_but_proposals r0 r1 /\ (row_job_id r0 <> id -> r1 = r0))
    rows rows.
Proof. induction rows; constructor; auto. split; [repeat split | reflexivity]. Qed.

(** C3: when the table already holds a row with the entry's job id,
    processing the entry sends no notification and leaves every row's
    [job_id], [job_url], [job_title], [posted_date], [job_description]
    and [job_tags] as they were, rows with another id untouched; and
    when the database accepts the statements the rows with that id get
    the new proposals value and the time of the update, nothing else
    changes, and the change is committed. *)
Theorem existing_job_only_updates_proposals (entry : Entry) (w : World datetime) :
  let id := generate_job_id (title entry) in
  0 < length (List.filter (has_id id) (jobs w)) ->
  let res := persist_entry' entry w in
  notifications res.2 = notifications w /\
  Forall2 (fun r0 r1 => same_but_proposals r0 r1 /\ (row_job_id r0 <> id -> r1 = r0))
    (jobs w) (jobs res.2) /\
  (db_raises (SelectCount id) = false ->
   db_raises (UpdateProposals (cleaned_proposals entry)
                (clock (ticks w)) id) = false ->
   db_raises Commit = false ->
   res.1 = Ok () /\
   jobs res.2 =
     List.map (fun r => if has_id id r
                        then set_proposals (cleaned_proposals entry)
                               (clock (ticks w)) r
                        else r) (jobs w) /\
   committed res.2 = jobs res.2).
Proof.
  intros id Hcount res. subst res.
  apply Nat.ltb_lt in Hcount.
  unfold persist_entry, bind, execute, now, ret. fold id.
  fold (cleaned_proposals entry).
  destruct (db_raises (SelectCount id)) eqn:Hsel; simpl.
  { split; [reflexivity|]. split; [apply rows_frame_refl | discriminate]. }
  rewrite Hcount. simpl.
  destruct (db_raises (UpdateProposals _ _ id)) eqn:Hupd; simpl.
  { split; [reflexivity|]. split; [apply rows_frame_refl | intros _ [=]]. }
  destruct (db_raises Commit) eqn:Hcom; simpl.
  - split; [reflexivity|]. split; [apply update_rows_frame | intros _ _ [=]].
  - split; [reflexivity|]. split; [apply update_rows_frame | auto].
Qed.

(** *** Where notifications and rows come from *)

Definition notified_from (es : list Entry) (j : Job datetime) : Prop :=
  exists e, e ∈ es /\ job_title j = Some (title e) /\ job_url j = Some (url e) /\
            job_description j = Some (description e).

Definition row_from (es : list Entry) (r : Row datetime) : Prop :=
  exists e, e ∈ es /\ row_job_title r = title e /\ row_job_url r = url e /\
            row_job_description r = description e.

Definition row_kept (rows : list (Row datetime)) (r : Row datetime) : Prop :=
  exists r0, r0 ∈ rows /\ same_but_proposals r0 r.

(** From [w] to [w'] every notification added was built from an entry
    of [es], and every row is an earlier row (up to proposals and
    update time) or was built from an entry of [es]. *)
Definition only_from (es : list Entry) (w w' : World datetime) : Prop :=
  (exists new, notifications w' = notifications w ++ new /\ Forall (notified_from es) new) /\
  Forall (fun r => row_kept (jobs w) r \/ row_from es r) (jobs w').

Lemma same_but_proposals_refl r : same_but_proposals r r.
Proof. repeat split. Qed.

Lemma same_but_proposals_trans r0 r1 r2 :
  same_but_proposals r0 r1 -> same_but_proposals r1 r2 -> same_but_proposals r0 r2.
Proof. unfold same_but_proposals. intuition congruence. Qed.

Lemma rows_kept_self es rows :
  Forall (fun r => row_kept rows r \/ row_from es r) rows.
Proof.
  apply Forall_forall. intros r Hr. left. exists r.
  split; [assumption | apply same_but_proposals_refl].
Qed.

Lemma rows_kept_update es id p t rows :
  Forall (fun r => row_kept rows r \/ row_from es r)
    (List.map (fun r => if has_id id r then set_proposals p t r else r) rows).
Proof.
  apply Forall_forall. intros r Hr. apply list_elem_of_fmap in Hr as [r0 [-> Hr0]].
  left. exists r0. split; [assumption|].
  destruct (has_id id r0); repeat split.
Qed.

Lemma only_from_refl es w : only_from es w w.
Proof.
  split; [exists []; rewrite app_nil_r; split; [reflexivity | constructor]|].
  apply rows_kept_self.
Qed.

Lemma only_from_mono es es' w w' :
  (forall e, e ∈ es -> e ∈ es') -> only_from es w w' -> only_from es' w w'.
Proof.
  intros Hsub [[new [Hn Hnew]] Hrows]. split.
  - exists new. split; [assumption|].
    eapply Forall_impl; [exact Hnew|]. intros j [e [He Hj]]. exists e. auto.
  - eapply Forall_impl; [exact Hrows|]. intros r [Hk | [e [He Hr]]]; [by left|].
    right. exists e. auto.
Qed.

Lemma only_from_trans es w1 w2 w3 :
  only_from es w1 w2 -> only_from es w2 w3 -> only_from es w1 w3.
Proof.
  intros [[n1 [Hn1 Hf1]] Hr1] [[n2 [Hn2 Hf2]] Hr2]. split.
  - exists (n1 ++ n2). rewrite Hn2, Hn1, app_assoc. split; [reflexivity|].
    apply Forall_app. auto.
  - eapply Forall_impl; [exact Hr2|]. intros r [[r2 [Hin Hsame]] | Hfrom]; [|by right].
    rewrite Forall_forall in Hr1. destruct (Hr1 r2 Hin) as [[r1 [Hin1 Hsame1]] | [e [He Hr]]].
    + left. exists r1. split; [assumption|]. eapply same_but_proposals_trans; eassumption.
    + right. exists e. destruct Hsame as (_ & Hu & Ht & _ & Hd & _).
      destruct Hr as (Ht' & Hu' & Hd'). split; [assumption|]. repeat split; congruence.
Qed.

Local Ltac nothing_new :=
  split; [exists []; rewrite app_nil_r; split; [reflexivity | constructor]|];
  simpl; first [apply rows_kept_self | apply rows_kept_update].

Lemma persist_entry_only_from entry w :
  only_from [entry] w (persist_entry' entry w).2.
Proof.
  unfold persist_entry, bind, execute, now, notify_new_job, ret.
  destruct (db_raises (SelectCount _)); simpl; [nothing_new|].
  destruct (0 <? _); simpl.
  - destruct (db_raises (UpdateProposals _ _ _)); simpl; [nothing_new|].
    destruct (db_raises Commit); simpl; nothing_new.
  - destruct (db_raises (InsertJob _)); simpl; [nothing_new|].
    destruct (db_raises Commit); simpl;
      (split;
       [ eexists [_]; split; [reflexivity|]; constructor; [|constructor];
         exists entry; split; [apply list_elem_of_singleton; reflexivity | repeat split]
       | apply Forall_app; split; [apply rows_kept_self|];
         constructor; [|constructor]; right;
         exists entry; split; [apply list_elem_of_singleton; reflexivity | repeat split] ]).
Qed.

Lemma persist_entries_only_from es w :
  only_from es w (persist_entries' es w).2.
Proof.
  revert w; induction es as [|e es IH]; intros w; simpl; [apply only_from_refl|].
  unfold bind. pose proof (persist_entry_only_from e w) as He.
  destruct (persist_entry' e w) as [[[]|err] w1]; simpl in *.
  - eapply only_from_trans.
    + eapply only_from_mono; [|exact He]. intros x Hx. apply list_elem_of_singleton in Hx.
      subst x. apply list_elem_of_here.
    + eapply only_from_mono; [|apply IH]. intros x Hx. by apply list_elem_of_further.
  - eapply only_from_mono; [|exact He]. intros x Hx. apply list_elem_of_singleton in Hx.
    subst x. apply list_elem_of_here.
Qed.

(** The entries one cycle hands to the persist loops. *)
Definition search_entries_of (browser : Browser) (search_url : str) : list Entry :=
  match scrape_search_page str_lower config (search_page browser search_url) with
  | Ok es => es
  | Raise _ => []
  end.

Definition offered_entries (browser : Browser) : list Entry :=
  match best_matches browser with
  | Ok raw_links => collect_job_entries str_lower config raw_links
  | Raise _ => []
  end ++
  concat (List.map (search_entries_of browser) (getattr_list (SEARCH_PAGES config))).

Local Abbreviation visit_search_page' :=
  (visit_search_page str_lower config generate_job_id clean_job_proposals
     calculate_posted_datetime clock db_raises).

Lemma visit_search_page_ok browser u w : (visit_search_page' browser u w).1 = Ok ().
Proof.
  unfold visit_search_page, logged.
  destruct (bind _ _ _ w) as [[[]|] w']; reflexivity.
Qed.


Lemma visit_search_page_only_from browser u w :
  only_from (search_entries_of browser u) w (visit_search_page' browser u w).2.
Proof.
  unfold visit_search_page, logged, bind, lift, search_entries_of.
  destruct (scrape_search_page str_lower config (search_page browser u)) as [es|];
    [|apply only_from_refl].
  pose proof (persist_entries_only_from es w) as H.
  destruct (persist_entries' es w) as [[[]|] w']; exact H.
Qed.

Lemma visit_search_pages_only_from browser urls w :
  only_from (concat (List.map (search_entries_of browser) urls)) w
    (visit_search_pages' browser urls w).2.
Proof.
  revert w; induction urls as [|u urls IH]; intros w; simpl; [apply only_from_refl|].
  unfold bind. pose proof (visit_search_page_only_from browser u w) as Hu.
  destruct (visit_search_page' browser u w) as [[[]|] w']; simpl in Hu.
  - eapply only_from_trans.
    + eapply only_from_mono; [|exact Hu]. intros x Hx. apply elem_of_app. by left.
    + eapply only_from_mono; [|apply IH]. intros x Hx. apply elem_of_app. by right.
  - eapply only_from_mono; [|exact Hu]. intros x Hx. apply elem_of_app. by left.
Qed.

Lemma scrape_cycle_only_from browser w :
  only_from (offered_entries browser) w (scrape_cycle' browser w).2.
Proof.
  unfold scrape_cycle, offered_entries, bind, lift.
  destruct (best_matches browser) as [raw_links|]; [|apply only_from_refl].
  pose proof (persist_entries_only_from (collect_job_entries str_lower config raw_links) w) as Hb.
  destruct (persist_entries' _ w) as [[[]|] w1]; simpl in Hb.
  - eapply only_from_trans.
    + eapply only_from_mono; [|exact Hb]. intros x Hx. apply elem_of_app. by left.
    + eapply only_from_mono; [|apply visit_search_pages_only_from].
      intros x Hx. apply elem_of_app. by right.
  - eapply only_from_mono; [|exact Hb]. intros x Hx. apply elem_of_app. by left.
Qed.

Lemma persist_entry_ok entry w :
  (forall s, db_raises s = false) -> (persist_entry' entry w).1 = Ok ().
Proof.
  intros Hdb. unfold persist_entry, bind, execute, now, notify_new_job, ret.
  rewrite !Hdb. simpl. destruct (0 <? _); simpl; rewrite ?Hdb; reflexivity.
Qed.

Lemma persist_entries_ok es w :
  (forall s, db_raises s = false) -> (persist_entries' es w).1 = Ok ().
Proof.
  intros Hdb. revert w; induction es as [|e es IH]; intros w; simpl; [reflexivity|].
  unfold bind. pose proof (persist_entry_ok e w Hdb) as He.
  destruct (persist_entry' e w) as [[[]|] w']; simpl in He; [apply IH | discriminate].
Qed.


(** C1, as the code has it.  An entry whose scraped description is not
    empty and mentions a banned term, case-insensitively, adds no
    record: for an anchor the description is the text chosen from its
    container, for a tile it is the raw description paragraph, before
    the client and proposals lines are put in front of it; a tile is
    refused as well when one of its client-info parts mentions a term
    of the configured list.  Every record a pass does emit passed these
    filters, and in a cycle every notification sent and every row
    written is built from a record the passes emitted. *)
Theorem banned_entries_never_reach_persistence :
  (forall st link t d p po,
     anchor_text link = Ok t ->
     container_fields link (strip t) = (d, p, po) ->
     truthy d = true ->
     mentions_banned str_lower (getattr_list (BANNED_COUNTRIES config)) (str_lower d) = true ->
     (collect_link str_lower config st link).2 = st.2) /\
  (forall raw_links,
     Forall (fun e => description_clean str_lower config (description e))
       (collect_job_entries str_lower config raw_links)) /\
  (forall st tile,
     (truthy (tile_description_text tile) = true /\
      mentions_banned str_lower (getattr_list (BANNED_COUNTRIES config))
        (str_lower (tile_description_text tile)) = true) \/
     (exists banned, BANNED_COUNTRIES config = Some banned /\
        client_banned str_lower banned (client_parts_of tile) = true) ->
     (scrape_tile str_lower config st tile).2 = st.2) /\
  (forall tiles, exists es,
     scrape_search_page str_lower config (Ok tiles) = Ok es /\
     Forall (composed_clean str_lower config) es) /\
  (forall browser w, only_from (offered_entries browser) w (scrape_cycle' browser w).2).
Proof.
  split; [|split; [|split; [|split]]].
  - intros st link t d p po. apply collect_link_refuses_banned.
  - intros raw_links. unfold collect_job_entries, collect_links_from.
    apply foldl_entries_forall; [apply collect_link_clean | constructor].
  - apply scrape_tile_refuses_banned.
  - intros tiles. eexists. split; [reflexivity|].
    unfold scrape_tiles_from.
    apply foldl_entries_forall; [apply scrape_tile_clean | constructor].
  - apply scrape_cycle_only_from.
Qed.

(** *** The table across entries and cycles *)

(** Whatever holds of the world before a cycle and is kept by the
    processing of one entry holds after the cycle. *)
Lemma persist_entries_preserves (P : World datetime -> Prop) :
  (forall e w, P w -> P (persist_entry' e w).2) ->
  forall es w, P w -> P (persist_entries' es w).2.
Proof.
  intros Hstep es. induction es as [|e es IH]; intros w Hw; simpl; [assumption|].
  unfold bind. specialize (Hstep e w Hw).
  destruct (persist_entry' e w) as [[[]|] w1]; simpl in *; [apply IH|]; assumption.
Qed.

Lemma visit_search_pages_preserves (P : World datetime -> Prop) :
  (forall e w, P w -> P (persist_entry' e w).2) ->
  forall browser urls w, P w -> P (visit_search_pages' browser urls w).2.
Proof.
  intros Hstep browser urls. induction urls as [|u urls IH]; intros w Hw; simpl; [assumption|].
  unfold bind.
  assert (P (visit_search_page' browser u w).2) as Hu.
  { unfold visit_search_page, logged, bind, lift.
    destruct (scrape_search_page str_lower config (search_page browser u)) as [es|]; [|assumption].
    pose proof (persist_entries_preserves P Hstep es w Hw) as H.
    destruct (persist_entries' es w) as [[[]|] w1]; exact H. }
  pose proof (visit_search_page_ok browser u w) as Hok.
  destruct (visit_search_page' browser u w) as [[[]|] w1]; simpl in *; [apply IH; assumption | discriminate].
Qed.

Lemma scrape_cycle_preserves (P : World datetime -> Prop) :
  (forall e w, P w -> P (persist_entry' e w).2) ->
  forall browser w, P w -> P (scrape_cycle' browser w).2.
Proof.
  intros Hstep browser w Hw. unfold scrape_cycle, bind, lift.
  destruct (best_matches browser) as [raw_links|]; [|assumption].
  pose proof (persist_entries_preserves P Hstep
                (collect_job_entries str_lower config raw_links) w Hw) as Hb.
  destruct (persist_entries' _ w) as [[[]|] w1]; simpl in Hb; [|assumption].
  apply visit_search_pages_preserves; assumption.
Qed.

Definition job_ids (w : World datetime) : list str := List.map row_job_id (jobs w).

Lemma update_keeps_ids id p t (rows : list (Row datetime)) :
  List.map row_job_id
    (List.map (fun r => if has_id id r then set_proposals p t r else r) rows) =
  List.map row_job_id rows.
Proof.
  induction rows as [|r rows IH]; simpl; [reflexivity|].
  rewrite IH. destruct (has_id id r); reflexivity.
Qed.

Lemma count_zero_absent id (rows : list (Row datetime)) :
  (0 <? length (List.filter (has_id id) rows)) = false ->
  id ∉ List.map row_job_id rows.
Proof.
  induction rows as [|r rows IH]; simpl; [intros _; apply not_elem_of_nil|].
  unfold has_id at 1. case_bool_decide as Hid; simpl; [discriminate|].
  intros H. apply not_elem_of_cons. split; [congruence | auto].
Qed.

Lemma count_pos_present id (rows : list (Row datetime)) :
  (0 <? length (List.filter (has_id id) rows)) = true <->
  id ∈ List.map row_job_id rows.
Proof.
  induction rows as [|r rows IH]; simpl.
  - split; [discriminate | intros H; inversion H].
  - unfold has_id at 1. case_bool_decide as Hid; simpl.
    + split; [intros _; rewrite Hid; apply list_elem_of_here | reflexivity].
    + rewrite IH. split; [apply list_elem_of_further|].
      intros H. apply elem_of_cons in H as [H | H]; [congruence | assumption].
Qed.

Lemma persist_entry_ids_unique entry w :
  NoDup (job_ids w) -> NoDup (job_ids (persist_entry' entry w).2).
Proof.
  unfold job_ids, persist_entry, bind, execute, now, notify_new_job, ret. intros Hnd.
  destruct (db_raises (SelectCount _)); simpl; [assumption|].
  destruct (0 <? _) eqn:Hcount; simpl.
  - destruct (db_raises (UpdateProposals _ _ _)); simpl; [assumption|].
    destruct (db_raises Commit); simpl; rewrite update_keeps_ids; assumption.
  - apply count_zero_absent in Hcount.
    destruct (db_raises (InsertJob _)); simpl; [assumption|].
    destruct (db_raises Commit); simpl; rewrite map_app; simpl;
      (apply NoDup_app; split; [assumption|]; split; [|apply NoDup_singleton];
       intros x Hx Hx'; apply list_elem_of_singleton in Hx'; subst x; contradiction).
Qed.

(** X9: at most one row per job id.  If the job ids of the table are
    pairwise distinct before a cycle they are so after it, whatever
    the pages show and wherever the database raises. *)
Theorem cycle_keeps_job_ids_unique (browser : Browser) (w : World datetime) :
  NoDup (job_ids w) -> NoDup (job_ids (scrape_cycle' browser w).2).
Proof.
  apply (scrape_cycle_preserves (fun w => NoDup (job_ids w))).
  intros e w0. apply persist_entry_ids_unique.
Qed.

(** X8: an entry whose job id is not in the table, on a database that
    accepts the three statements: one row is appended with the entry's
    URL, title and description, the cleaned proposals, the posted date
    and the literal ['[]'] for tags; the same data is notified once; the
    table is committed; the clock is not read. *)
Theorem new_job_inserted_and_notified_once (entry : Entry) (w : World datetime) :
  let id := generate_job_id (title entry) in
  let posted_date_ :=
    if truthy (posted entry)
    then try_or VNone (calculate_posted_datetime (posted entry))
    else VNone in
  let row :=
    {| row_job_id := id; row_job_url := url entry; row_job_title := title entry;
       row_posted_date := posted_date_; row_job_description := description entry;
       row_job_tags := lit "[]"; row_job_proposals := cleaned_proposals entry;
       row_updated_at := None |} in
  length (List.filter (has_id id) (jobs w)) = 0 ->
  db_raises (SelectCount id) = false ->
  db_raises (InsertJob row) = false ->
  db_raises Commit = false ->
  persist_entry' entry w =
    (Ok (),
     {| jobs := jobs w ++ [row];
        committed := jobs w ++ [row];
        notifications :=
          notifications w ++
            [{| job_id := Some id; job_url := Some (url entry);
                job_title := Some (title entry); posted_date := posted_date_;
                job_description := Some (description entry);
                job_tags := Some (lit "[]");
                job_proposals := Some (cleaned_proposals entry) |}];
        ticks := ticks w |}).
Proof.
  intros id posted_date_ row Hcount Hsel Hins Hcom.
  unfold persist_entry, bind, execute, now, notify_new_job, ret.
  fold id. fold (cleaned_proposals entry). fold posted_date_.
  rewrite Hsel. simpl. rewrite Hcount. simpl.
  unfold tags_literal. fold row. rewrite Hins. simpl. rewrite Hcom. reflexivity.
Qed.

(** X11: the notification goes out before the commit.  When the insert
    of a new job is accepted and the commit raises, the exception is
    raised with the job already notified and its row in the connection's
    table, while the committed table is as before. *)
Theorem commit_failure_after_notification (entry : Entry) (w : World datetime) :
  let id := generate_job_id (title entry) in
  length (List.filter (has_id id) (jobs w)) = 0 ->
  db_raises (SelectCount id) = false ->
  (forall r, db_raises (InsertJob r) = false) ->
  db_raises Commit = true ->
  let res := persist_entry' entry w in
  res.1 = Raise "DatabaseError"%string /\
  committed res.2 = committed w /\
  (exists r, jobs res.2 = jobs w ++ [r] /\ row_job_id r = id) /\
  (exists j, notifications res.2 = notifications w ++ [j] /\
             job_title j = Some (title entry) /\ job_url j = Some (url entry)).
Proof.
  intros id Hcount Hsel Hins Hcom res. subst res.
  unfold persist_entry, bind, execute, now, notify_new_job, ret. fold id.
  rewrite Hsel. simpl. rewrite Hcount. simpl. rewrite Hins. simpl. rewrite Hcom. simpl.
  split; [reflexivity|]. split; [reflexivity|].
  split; eexists; split; try reflexivity. split; reflexivity.
Qed.

Lemma persist_entry_counts_gen entry w (k m : nat) :
  length (notifications w) + k = length (jobs w) + m ->
  length (notifications (persist_entry' entry w).2) + k =
  length (jobs (persist_entry' entry w).2) + m.
Proof.
  unfold persist_entry, bind, execute, now, notify_new_job, ret. intros H.
  destruct (db_raises (SelectCount _)); simpl; [assumption|].
  destruct (0 <? _); simpl.
  - destruct (db_raises (UpdateProposals _ _ _)); simpl; [assumption|].
    destruct (db_raises Commit); simpl; rewrite length_map; assumption.
  - destruct (db_raises (InsertJob _)); simpl; [assumption|].
    destruct (db_raises Commit); simpl; rewrite !length_app; simpl; lia.
Qed.

(** X12: in a cycle exactly as many notifications are sent as rows are
    added, wherever it stops. *)
Theorem cycle_notifies_once_per_new_row (browser : Browser) (w : World datetime) :
  let w' := (scrape_cycle' browser w).2 in
  length (notifications w') + length (jobs w) =
  length (notifications w) + length (jobs w').
Proof.
  intros w'. subst w'.
  assert (forall k m w0,
            length (notifications w0) + k = length (jobs w0) + m ->
            length (notifications (scrape_cycle' browser w0).2) + k =
            length (jobs (scrape_cycle' browser w0).2) + m) as Hgen.
  { intros k m. apply (scrape_cycle_preserves
      (fun w1 => length (notifications w1) + k = length (jobs w1) + m)).
    intros e w1 Hw1. apply persist_entry_counts_gen, Hw1. }
  specialize (Hgen (length (jobs w)) (length (notifications w)) w). lia.
Qed.

Lemma persist_entries_app es1 es2 w :
  persist_entries' (es1 ++ es2) w =
  bind _ (persist_entries' es1) (fun _ => persist_entries' es2) w.
Proof.
  revert w; induction es1 as [|e es1 IH]; intros w; simpl.
  - unfold bind, ret. reflexivity.
  - unfold bind in *. destruct (persist_entry' e w) as [[[]|] w1]; [apply IH | reflexivity].
Qed.

Lemma sound_visit_is_one_loop browser urls w :
  (forall s, db_raises s = false) ->
  visit_search_pages' browser urls w =
  persist_entries' (concat (List.map (search_entries_of browser) urls)) w.
Proof.
  intros Hdb. revert w. induction urls as [|u urls IH]; intros w; simpl; [reflexivity|].
  rewrite persist_entries_app. unfold bind.
  assert (visit_search_page' browser u w =
          persist_entries' (search_entries_of browser u) w) as ->.
  { unfold visit_search_page, logged, bind, lift, search_entries_of.
    destruct (scrape_search_page str_lower config (search_page browser u)) as [es|];
      [|reflexivity].
    pose proof (persist_entries_ok es w Hdb) as Hok.
    destruct (persist_entries' es w) as [[[]|] w1]; simpl in Hok; [reflexivity | discriminate]. }
  destruct (persist_entries' (search_entries_of browser u) w) as [[[]|] w1];
    [apply IH | reflexivity].
Qed.

(** On a database that never raises, a cycle whose best-matches page
    loads is the persist loop run over everything the passes offer. *)
Lemma sound_cycle_is_one_loop browser w raw_links :
  (forall s, db_raises s = false) ->
  best_matches browser = Ok raw_links ->
  scrape_cycle' browser w = persist_entries' (offered_entries browser) w.
Proof.
  intros Hdb Hb. unfold scrape_cycle, offered_entries. rewrite Hb.
  rewrite persist_entries_app. unfold bind, lift.
  destruct (persist_entries' _ w) as [[[]|] w1]; [|reflexivity].
  apply sound_visit_is_one_loop, Hdb.
Qed.

Lemma persist_entry_present entry w :
  (forall s, db_raises s = false) ->
  generate_job_id (title entry) ∈ job_ids (persist_entry' entry w).2 /\
  (forall id, id ∈ job_ids w -> id ∈ job_ids (persist_entry' entry w).2).
Proof.
  intros Hdb. unfold job_ids, persist_entry, bind, execute, now, notify_new_job, ret.
  rewrite !Hdb. simpl. destruct (0 <? _) eqn:Hcount; simpl; rewrite ?Hdb; simpl.
  - rewrite update_keeps_ids. split; [apply count_pos_present, Hcount | auto].
  - rewrite map_app. simpl. split.
    + apply elem_of_app. right. apply list_elem_of_here.
    + intros id Hid. apply elem_of_app. by left.
Qed.

Lemma persist_entries_present es w :
  (forall s, db_raises s = false) ->
  (forall e, e ∈ es -> generate_job_id (title e) ∈ job_ids (persist_entries' es w).2) /\
  (forall id, id ∈ job_ids w -> id ∈ job_ids (persist_entries' es w).2).
Proof.
  intros Hdb. revert w; induction es as [|e es IH]; intros w; simpl.
  - split; [intros e He; inversion He | auto].
  - unfold bind. pose proof (persist_entry_ok e w Hdb) as Hok.
    destruct (persist_entry_present e w Hdb) as [He Hmono].
    destruct (persist_entry' e w) as [[[]|] w1]; simpl in *; [|discriminate].
    destruct (IH w1) as [Hes Hmono1]. split.
    + intros x Hx. apply elem_of_cons in Hx as [-> | Hx]; auto.
    + auto.
Qed.

Lemma forall2_same_trans (l0 l1 l2 : list (Row datetime)) :
  Forall2 same_but_proposals l0 l1 -> Forall2 same_but_proposals l1 l2 ->
  Forall2 same_but_proposals l0 l2.
Proof.
  revert l1 l2; induction l0 as [|a l0 IH]; intros l1 l2 H01 H12.
  - inversion H01; subst. inversion H12; subst. constructor.
  - inversion H01; subst. inversion H12; subst. constructor.
    + eapply same_but_proposals_trans; eassumption.
    + eapply IH; eassumption.
Qed.

Lemma forall2_same_update id p t (rows : list (Row datetime)) :
  Forall2 same_but_proposals rows
    (List.map (fun r => if has_id id r then set_proposals p t r else r) rows).
Proof.
  induction rows as [|r rows IH]; simpl; constructor; [|exact IH].
  destruct (has_id id r); repeat split.
Qed.

Lemma persist_entry_known entry w :
  (forall s, db_raises s = false) ->
  generate_job_id (title entry) ∈ job_ids w ->
  exists p t w1,
    persist_entry' entry w = (Ok (), w1) /\
    notifications w1 = notifications w /\
    jobs w1 =
      List.map (fun r => if has_id (generate_job_id (title entry)) r
                         then set_proposals p t r else r) (jobs w).
Proof.
  intros Hdb Hin. apply count_pos_present in Hin.
  unfold persist_entry, bind, execute, now, notify_new_job, ret.
  rewrite !Hdb. simpl. rewrite Hin. simpl. rewrite ?Hdb. simpl.
  eexists _, _, _. split; [reflexivity|]. split; reflexivity.
Qed.

(** Entries whose job ids are all in the table change proposals and
    update times only. *)
Lemma persist_known_entries es w :
  (forall s, db_raises s = false) ->
  (forall e, e ∈ es -> generate_job_id (title e) ∈ job_ids w) ->
  notifications (persist_entries' es w).2 = notifications w /\
  Forall2 same_but_proposals (jobs w) (jobs (persist_entries' es w).2).
Proof.
  intros Hdb. revert w; induction es as [|e es IH]; intros w Hknown; simpl.
  - split; [reflexivity|]. induction (jobs w); constructor;
      [apply same_but_proposals_refl | assumption].
  - destruct (persist_entry_known e w Hdb) as (p & t & w1 & Hrun & Hn & Hjobs);
      [apply Hknown, list_elem_of_here|].
    unfold bind. rewrite Hrun.
    destruct (IH w1) as [Hn1 Hrows1].
    { intros x Hx. unfold job_ids. rewrite Hjobs, update_keeps_ids.
      apply Hknown. by apply list_elem_of_further. }
    split; [congruence|].
    eapply forall2_same_trans; [|exact Hrows1].
    rewrite Hjobs. apply forall2_same_update.
Qed.

(** X10: scraping the same pages again is idempotent.  On a database
    that never raises, a second cycle over the pages of the first sends
    no notification and adds no row; rows differ from before in
    proposals and update time only. *)
Theorem second_cycle_adds_nothing (browser : Browser) (w : World datetime) :
  (forall s, db_raises s = false) ->
  let w1 := (scrape_cycle' browser w).2 in
  let w2 := (scrape_cycle' browser w1).2 in
  notifications w2 = notifications w1 /\
  Forall2 same_but_proposals (jobs w1) (jobs w2).
Proof.
  intros Hdb w1 w2. subst w1 w2.
  destruct (best_matches browser) as [raw_links|e] eqn:Hb.
  - rewrite !(sound_cycle_is_one_loop _ _ raw_links Hdb Hb).
    apply (persist_known_entries _ _ Hdb).
    apply (persist_entries_present _ _ Hdb).
  - unfold scrape_cycle, bind, lift. rewrite Hb. simpl.
    split; [reflexivity|]. apply (persist_known_entries [] w Hdb).
    intros x Hx. inversion Hx.
Qed.

(** X13: the auxiliary pages are visited one after the other from the
    world the previous one left, whatever happened there; a page whose
    loading raises is passed over without touching the table. *)
Theorem search_pages_fail_independently (browser : Browser) (u : str) (rest : list str)
    (w : World datetime) :
  visit_search_pages' browser (u :: rest) w =
    visit_search_pages' browser rest (visit_search_page' browser u w).2 /\
  (forall e, search_page browser u = Raise e ->
     visit_search_pages' browser (u :: rest) w = visit_search_pages' browser rest w).
Proof.
  split.
  - simpl. unfold bind. pose proof (visit_search_page_ok browser u w) as Hok.
    destruct (visit_search_page' browser u w) as [[[]|] w1]; simpl in *; [reflexivity | discriminate].
  - intros e He. simpl. unfold bind, visit_search_page, logged, bind, lift, scrape_search_page.
    rewrite He. reflexivity.
Qed.

Definition table_extends (w0 w1 : World datetime) : Prop :=
  exists old new, jobs w1 = old ++ new /\ Forall2 same_but_proposals (jobs w0) old.

Lemma persist_entry_table_extends w0 entry w :
  table_extends w0 w -> table_extends w0 (persist_entry' entry w).2.
Proof.
  intros (old & new & Hjobs & Hold).
  unfold table_extends, persist_entry, bind, execute, now, notify_new_job, ret.
  destruct (db_raises (SelectCount _)); simpl; [eauto|].
  destruct (0 <? _); simpl.
  - destruct (db_raises (UpdateProposals _ _ _)); simpl; [eauto|].
    destruct (db_raises Commit); simpl; rewrite Hjobs, map_app;
      (eexists _, _; split; [reflexivity|];
       eapply forall2_same_trans; [exact Hold | apply forall2_same_update]).
  - destruct (db_raises (InsertJob _)); simpl; [eauto|].
    destruct (db_raises Commit); simpl; rewrite Hjobs, <- app_assoc; eauto.
Qed.

(** X14: a cycle never deletes or reorders rows.  The table after the
    cycle starts with the rows it had, which kept their id, URL, title,
    posted date, description and tags, followed by the rows added. *)
Theorem cycle_never_removes_rows (browser : Browser) (w : World datetime) :
  exists old new,
    jobs (scrape_cycle' browser w).2 = old ++ new /\
    Forall2 same_but_proposals (jobs w) old.
Proof.
  apply (scrape_cycle_preserves (table_extends w)).
  - intros e w1. apply persist_entry_table_extends.
  - exists (jobs w), []. rewrite app_nil_r. split; [reflexivity|].
    clear. induction (jobs w); constructor; [apply same_but_proposals_refl | assumption].
Qed.

(** The connection's table is the committed one or one statement ahead
    of it. *)
Definition one_statement_ahead (w : World datetime) : Prop :=
  jobs w = committed w \/
  (exists r, jobs w = committed w ++ [r]) \/
  (exists id p t,
     jobs w = List.map (fun r => if has_id id r then set_proposals p t r else r) (committed w)).

Lemma persist_entry_commit_lag entry w :
  jobs w = committed w ->
  let res := persist_entry' entry w in
  (res.1 = Ok () -> jobs res.2 = committed res.2) /\ one_statement_ahead res.2.
Proof.
  intros Hw res. subst res.
  unfold one_statement_ahead, persist_entry, bind, execute, now, notify_new_job, ret.
  destruct (db_raises (SelectCount _)); simpl; [split; [discriminate | by left]|].
  destruct (0 <? _); simpl.
  - destruct (db_raises (UpdateProposals _ _ _)); simpl; [split; [discriminate | by left]|].
    destruct (db_raises Commit); simpl.
    + split; [discriminate|]. right. right. rewrite Hw. eauto.
    + split; [reflexivity | by left].
  - destruct (db_raises (InsertJob _)); simpl; [split; [discriminate | by left]|].
    destruct (db_raises Commit); simpl.
    + split; [discriminate|]. right. left. rewrite Hw. eauto.
    + split; [reflexivity | by left].
Qed.

(** X15: commits are per record.  Starting from a committed table, a
    persist loop that completes leaves everything committed, and one
    that is interrupted by an exception leaves at most one statement (the
    insert or the update of the entry at hand) uncommitted. *)
Theorem at_most_one_statement_uncommitted (es : list Entry) (w : World datetime) :
  jobs w = committed w ->
  let res := persist_entries' es w in
  (res.1 = Ok () -> jobs res.2 = committed res.2) /\ one_statement_ahead res.2.
Proof.
  revert w; induction es as [|e es IH]; intros w Hw; simpl.
  - split; [intros _; exact Hw | by left].
  - unfold bind. destruct (persist_entry_commit_lag e w Hw) as [Hok Hlag].
    destruct (persist_entry' e w) as [[[]|err] w1]; simpl in *.
    + apply IH, Hok. reflexivity.
    + split; [discriminate | exact Hlag].
Qed.

End CycleFacts.

(** ** What the passes emit *)

Section EmittedRecords.

Variable str_lower : str -> str.
Variable config : Config.

Lemma contains_nil_false (sub : str) : sub <> [] -> contains sub [] = false.
Proof. destruct sub; [contradiction | reflexivity]. Qed.

Lemma contains_app_r (sub p r : str) :
  contains sub p = true -> contains sub (p ++ r) = true.
Proof.
  induction p as [|c p IH]; simpl.
  - rewrite orb_false_r. intros H. apply startswith_spec in H as [r' Hr'].
    destruct sub; [|discriminate]. destruct r; reflexivity.
  - intros H. apply orb_true_iff in H as [H | H].
    + apply startswith_spec in H as [r' Hr']. apply orb_true_iff. left.
      apply startswith_spec. exists (r' ++ r).
      change (c :: p ++ r) with ((c :: p) ++ r). rewrite Hr', app_assoc. reflexivity.
    + apply orb_true_iff. right. auto.
Qed.

Lemma denylisted_prefix (p r : str) : denylisted (p ++ r) = false -> denylisted p = false.
Proof.
  unfold denylisted. intros H. apply not_true_iff_false. intros Hp.
  apply not_true_iff_false in H. apply H.
  apply existsb_exists in Hp as [bad [Hin Hbad]].
  apply existsb_exists. exists bad. split; [assumption | apply contains_app_r, Hbad].
Qed.

Lemma denylisted_canonical (u : str) :
  denylisted u = false -> denylisted (canonical_url u) = false.
Proof.
  intros H. destruct (first_piece_is_prefix (lit "/?") u) as [r Hr].
  apply (denylisted_prefix _ r). unfold canonical_url. rewrite <- Hr. exact H.
Qed.

Lemma max_by_len_in (best : str) (rest : list str) :
  max_by_len best rest ∈ best :: rest.
Proof.
  revert best; induction rest as [|t rest IH]; intros best; simpl.
  - apply list_elem_of_here.
  - destruct (length best <? length t).
    + apply list_elem_of_further, IH.
    + specialize (IH best). apply elem_of_cons in IH as [-> | IH].
      * apply list_elem_of_here.
      * by do 2 apply list_elem_of_further.
Qed.

Lemma max_by_len_longest (best : str) (rest : list str) :
  forall x, x ∈ best :: rest -> length x <= length (max_by_len best rest).
Proof.
  revert best; induction rest as [|t rest IH]; intros best x Hx; simpl.
  - apply list_elem_of_singleton in Hx. subst. lia.
  - destruct (length best <? length t) eqn:Hlt.
    + apply Nat.ltb_lt in Hlt.
      apply elem_of_cons in Hx as [-> | Hx].
      * specialize (IH t t (list_elem_of_here _ _)). lia.
      * apply IH, Hx.
    + apply Nat.ltb_ge in Hlt.
      apply elem_of_cons in Hx as [-> | Hx].
      * apply IH, list_elem_of_here.
      * apply elem_of_cons in Hx as [-> | Hx].
        -- specialize (IH best best (list_elem_of_here _ _)). lia.
        -- apply IH. by apply list_elem_of_further.
Qed.

(** Ties go to the candidate met first: everything before the chosen
    text is strictly shorter. *)
Lemma max_by_len_first (best : str) (rest : list str) :
  exists before after,
    best :: rest = before ++ max_by_len best rest :: after /\
    Forall (fun x => length x < length (max_by_len best rest)) before.
Proof.
  revert best; induction rest as [|t rest IH]; intros best; simpl.
  - exists [], []. split; [reflexivity | constructor].
  - destruct (length best <? length t) eqn:Hlt.
    + apply Nat.ltb_lt in Hlt. destruct (IH t) as [before [after [Heq Hall]]].
      exists (best :: before), after. split; [simpl; congruence|].
      constructor; [|assumption].
      pose proof (max_by_len_longest t rest t (list_elem_of_here _ _)). lia.
    + destruct (IH best) as [before [after [Heq Hall]]].
      destruct before as [|b before].
      * simpl in Heq. injection Heq as Hb Hrest.
        exists [], (t :: after). split; [simpl; congruence | constructor].
      * simpl in Heq. injection Heq as -> Hrest.
        exists (b :: t :: before), after. split; [simpl; congruence|].
        apply Forall_cons in Hall as [Hb Hall].
        constructor; [assumption|]. constructor; [|assumption].
        apply Nat.ltb_ge in Hlt. lia.
Qed.

Lemma candidate_texts_ok (title_ : str) (els : list Element) (cs : list str) :
  candidate_texts title_ els = Ok cs ->
  Forall (fun c => truthy c = true /\ c <> title_) cs.
Proof.
  revert cs; induction els as [|el els IH]; intros cs; simpl.
  - intros [= <-]. constructor.
  - destruct (text el) as [t|]; simpl; [|discriminate].
    destruct (candidate_texts title_ els) as [rest|]; simpl; [|discriminate].
    intros [= <-]. specialize (IH rest eq_refl).
    destruct (truthy (strip t)) eqn:Ht; simpl; [|assumption].
    case_bool_decide as Heq; simpl; [assumption|].
    constructor; [split; assumption | assumption].
Qed.

Lemma text_candidates_ok (title_ : str) (c : Container) (cs : list str) :
  text_candidates title_ c = Ok cs ->
  Forall (fun x => truthy x = true /\ x <> title_) cs.
Proof.
  unfold text_candidates.
  destruct (find_p c) as [ps|]; simpl; [|discriminate].
  destruct (candidate_texts title_ ps) as [cp|] eqn:Hp; simpl; [|discriminate].
  destruct (find_div c) as [ds|]; simpl; [|discriminate].
  destruct (candidate_texts title_ ds) as [cd|] eqn:Hd; simpl; [|discriminate].
  destruct (find_span c) as [ss|]; simpl; [|discriminate].
  destruct (candidate_texts title_ ss) as [cspan|] eqn:Hs; simpl; [|discriminate].
  intros [= <-]. rewrite !Forall_app.
  repeat split; eapply candidate_texts_ok; eassumption.
Qed.

(** X3: the description of an anchor is the longest of the candidate
    texts of its container, the first one among several of that length;
    it is empty only when there is no candidate. *)
Theorem description_is_first_longest_candidate
    (link : Anchor) (title_ : str) (c : Container) (cands : list str) :
  first_found [ancestor_section link; ancestor_article link; ancestor_div link] = Some c ->
  text_candidates title_ c = Ok cands ->
  let d := (container_fields link title_).1.1 in
  (cands = [] -> d = []) /\
  (cands <> [] ->
     truthy d = true /\ d <> title_ /\
     (forall x, x ∈ cands -> length x <= length d) /\
     exists before after,
       cands = before ++ d :: after /\
       Forall (fun x => length x < length d) before).
Proof.
  intros Hc Hcands d. subst d. unfold container_fields. rewrite Hc, Hcands. simpl.
  split; [intros ->; reflexivity|].
  intros Hne. destruct cands as [|t rest]; [contradiction|].
  pose proof (text_candidates_ok _ _ _ Hcands) as Hok.
  rewrite Forall_forall in Hok.
  destruct (Hok _ (max_by_len_in t rest)) as [Htruthy Hdiff].
  split; [assumption|]. split; [assumption|].
  split; [apply max_by_len_longest | apply max_by_len_first].
Qed.

Lemma container_description_not_title (link : Anchor) (title_ : str) :
  truthy title_ = true -> (container_fields link title_).1.1 <> title_.
Proof.
  intros Ht. unfold container_fields.
  destruct (first_found _) as [c|]; simpl; [|intros <-; discriminate].
  destruct (text_candidates title_ c) as [cands|] eqn:Hc; simpl; [|intros <-; discriminate].
  destruct cands as [|t rest]; [intros <-; discriminate|].
  pose proof (text_candidates_ok _ _ _ Hc) as Hok. rewrite Forall_forall in Hok.
  exact (proj2 (Hok _ (max_by_len_in t rest))).
Qed.

(** A record of the loose pass. *)
Definition loose_record_ok (e : Entry) : Prop :=
  truthy (title e) = true /\
  canonical_url (url e) = url e /\
  denylisted (url e) = false /\
  tags e = [] /\
  description e <> title e.

Lemma collect_link_records_ok st link :
  Forall loose_record_ok st.2 ->
  Forall loose_record_ok (collect_link str_lower config st link).2.
Proof.
  destruct st as [seen es]. intros H. unfold collect_link.
  destruct (href link) as [h|]; [|assumption].
  destruct (negb (truthy (or_empty h))); [assumption|].
  destruct (denylisted (or_empty h)) eqn:Hdl; [assumption|].
  destruct (anchor_text link) as [t|]; [|assumption].
  destruct (negb (truthy (strip t))) eqn:Ht; [assumption|].
  case_bool_decide; [assumption|].
  pose proof (container_description_not_title link (strip t)) as Hd.
  destruct (container_fields link (strip t)) as [[d p] po].
  destruct (truthy d && _); [assumption|].
  simpl. apply Forall_app. split; [assumption|].
  constructor; [|constructor]. apply negb_false_iff in Ht.
  repeat split; simpl.
  - exact Ht.
  - apply first_piece_idem.
  - apply denylisted_canonical, Hdl.
  - apply Hd, Ht.
Qed.

(** X1: every record of the loose pass has a non-empty title, a URL
    that is canonical (canonicalising it again changes nothing) and free
    of the refused path fragments, no tags, and a description different
    from its title. *)
Theorem loose_records_well_formed (raw_links : list Anchor) :
  Forall loose_record_ok (collect_job_entries str_lower config raw_links).
Proof.
  unfold collect_job_entries, collect_links_from.
  apply foldl_entries_forall; [apply collect_link_records_ok | constructor].
Qed.

Lemma tag_texts_nonempty (btns : list Element) :
  Forall (fun t => truthy t = true) (tag_texts btns).
Proof.
  induction btns as [|btn btns IH]; simpl; [constructor|].
  destruct (text btn) as [t|]; [|constructor].
  destruct (truthy (strip t)) eqn:Ht; [constructor|]; assumption.
Qed.

(** A record of the structured pass. *)
Definition tile_record_ok (e : Entry) : Prop :=
  truthy (title e) = true /\
  canonical_url (url e) = url e /\
  denylisted (url e) = false /\
  Forall (fun t => truthy t = true) (tags e).

Lemma scrape_tile_records_ok st tile :
  Forall tile_record_ok st.2 ->
  Forall tile_record_ok (scrape_tile str_lower config st tile).2.
Proof.
  destruct st as [seen es]. intros H. unfold scrape_tile, scrape_tile_body.
  destruct (_ ← title_link tile; _) as [[href0 title_]|]; [|assumption].
  destruct (negb (truthy href0) || negb (truthy title_)) eqn:Hne; [assumption|].
  destruct (denylisted href0) eqn:Hdl; [assumption|].
  case_bool_decide; [assumption|].
  destruct (if truthy_list _ then _ else _) as [[]|]; simpl; [|assumption].
  destruct (truthy (tile_description_text tile) && _); simpl; [assumption|].
  apply Forall_app. split; [assumption|]. constructor; [|constructor].
  apply orb_false_iff in Hne as [_ Ht]. apply negb_false_iff in Ht.
  repeat split; simpl.
  - exact Ht.
  - apply first_piece_idem.
  - apply denylisted_canonical, Hdl.
  - destruct (tag_spans tile) as [btns|]; simpl; [apply tag_texts_nonempty | constructor].
Qed.

(** X2: every record of the structured pass has a non-empty title, a
    canonical URL free of the refused path fragments, and only non-empty
    tags. *)
Theorem tile_records_well_formed (tiles : list Tile) :
  exists es,
    scrape_search_page str_lower config (Ok tiles) = Ok es /\
    Forall tile_record_ok es.
Proof.
  eexists. split; [reflexivity|]. unfold scrape_tiles_from.
  apply foldl_entries_forall; [apply scrape_tile_records_ok | constructor].
Qed.

Lemma dedup_foldl_extends {T} (step : gset str * list Entry -> T -> gset str * list Entry) :
  dedup_step step ->
  forall xs st, exists more, (foldl step st xs).2 = st.2 ++ more.
Proof.
  intros Hstep xs. induction xs as [|x xs IH]; intros [seen es]; simpl.
  - exists []. rewrite app_nil_r. reflexivity.
  - destruct (Hstep seen es x) as [-> | [u [_ [-> | [e [_ ->]]]]]].
    + apply IH.
    + destruct (IH ({[u]} ∪ seen, es)) as [more Hm]. exists more. exact Hm.
    + destruct (IH ({[u]} ∪ seen, es ++ [e])) as [more Hm]. exists (e :: more).
      rewrite Hm. simpl. rewrite <- app_assoc. reflexivity.
Qed.

(** X4: records come out in page order and are never taken back: the
    output for the first anchors (tiles) of a page is a prefix of the
    output for the whole page. *)
Theorem pass_output_grows_by_appending
    (links more_links : list Anchor) (tiles more_tiles : list Tile) :
  (exists more,
     collect_job_entries str_lower config (links ++ more_links) =
     collect_job_entries str_lower config links ++ more) /\
  (exists es more,
     scrape_search_page str_lower config (Ok tiles) = Ok es /\
     scrape_search_page str_lower config (Ok (tiles ++ more_tiles)) = Ok (es ++ more)).
Proof.
  split.
  - unfold collect_job_entries, collect_links_from. rewrite foldl_app.
    apply (dedup_foldl_extends _ (collect_link_dedup str_lower config)).
  - unfold scrape_search_page, scrape_tiles_from. simpl. rewrite foldl_app.
    destruct (dedup_foldl_extends _ (scrape_tile_dedup str_lower config) more_tiles
                (foldl (scrape_tile str_lower config) (∅, []) tiles)) as [more Hm].
    eexists _, more. split; [reflexivity|]. rewrite Hm. reflexivity.
Qed.

(** X5: a tile with a usable title link, a URL not seen before and
    nothing for the filters to refuse always yields exactly one record;
    a sub-element that cannot be found only leaves its field empty
    (proposals, posted time, tags) or drops its line from the composed
    description. *)
Theorem tile_with_missing_parts_still_emitted
    (seen : gset str) (es : list Entry) (tile : Tile) (tl : TitleLink) (h : option str) (t : str) :
  title_link tile = Ok tl -> title_href tl = Ok h -> title_text tl = Ok t ->
  truthy (strip (or_empty h)) = true -> truthy (strip t) = true ->
  denylisted (strip (or_empty h)) = false ->
  canonical_url (strip (or_empty h)) ∉ seen ->
  (client_parts_of tile <> [] -> BANNED_COUNTRIES config <> None) ->
  client_banned str_lower (getattr_list (BANNED_COUNTRIES config)) (client_parts_of tile) = false ->
  description_clean str_lower config (tile_description_text tile) ->
  exists r,
    scrape_tile str_lower config (seen, es) tile =
      ({[canonical_url (strip (or_empty h))]} ∪ seen, es ++ [r]) /\
    url r = canonical_url (strip (or_empty h)) /\ title r = strip t /\
    (forall e, prop_li tile = Raise e ->
       proposals r = [] /\
       description r = compose_description (client_parts_of tile) [] (tile_description_text tile)) /\
    (forall e, posted_small tile = Raise e -> posted r = []) /\
    (forall e, tag_spans tile = Raise e -> tags r = []) /\
    (forall e, desc_p tile = Raise e ->
       description r =
         compose_description (client_parts_of tile) (proposals r) []) /\
    (forall e, client_ul tile = Raise e ->
       description r = compose_description [] (proposals r) (tile_description_text tile)).
Proof.
  intros Htl Hh Ht Hhref Htitle Hdl Hseen Hcfg Hclient Hdesc.
  unfold scrape_tile, scrape_tile_body. rewrite Htl. simpl. rewrite Hh. simpl.
  rewrite Ht. simpl. rewrite Hhref, Htitle, Hdl. simpl.
  rewrite bool_decide_eq_false_2 by assumption.
  assert ((if truthy_list (client_parts_of tile)
           then banned ← attr_list (BANNED_COUNTRIES config);
                if client_banned str_lower banned (client_parts_of tile)
                then Raise "Exception"%string else Ok ()
           else Ok ()) = Ok ()) as ->.
  { destruct (client_parts_of tile) as [|part parts] eqn:Hparts; [reflexivity|]. simpl.
    destruct (BANNED_COUNTRIES config) as [banned|]; [|exfalso; apply Hcfg; congruence].
    simpl in *. rewrite Hclient. reflexivity. }
  simpl. unfold description_clean in Hdesc. rewrite Hdesc. simpl.
  eexists. split; [reflexivity|]. simpl.
  split; [reflexivity|]. split; [reflexivity|].
  split; [intros e ->; split; reflexivity|].
  split; [intros e ->; reflexivity|].
  split; [intros e ->; reflexivity|].
  split.
  - intros e He. unfold tile_description_text. rewrite He. reflexivity.
  - intros e He. unfold client_parts_of. rewrite He. reflexivity.
Qed.

Lemma payment_part_shape ul :
  length (payment_part ul) <= 1 /\ Forall (fun p => truthy p = true) (payment_part ul).
Proof.
  unfold payment_part.
  destruct (payment_verified ul); [split; [simpl; lia | repeat constructor]|].
  destruct (payment_unverified ul); split; simpl; try lia; repeat constructor.
Qed.

Lemma rating_part_shape ul :
  length (rating_part ul) <= 1 /\ Forall (fun p => truthy p = true) (rating_part ul).
Proof.
  unfold rating_part.
  destruct (rating_value ul) as [el|]; simpl; [|split; [lia | constructor]].
  destruct (text el) as [r|]; simpl; [|split; [lia | constructor]].
  destruct (truthy r); simpl; split; try lia; repeat constructor.
Qed.

Lemma truthy_app_l (a b : str) : truthy a = true -> truthy (a ++ b) = true.
Proof. destruct a; [discriminate | reflexivity]. Qed.

Lemma spent_part_shape ul :
  length (spent_part ul) <= 1 /\ Forall (fun p => truthy p = true) (spent_part ul).
Proof.
  unfold spent_part.
  destruct (total_spent ul) as [li|]; simpl; [|split; [lia | constructor]].
  destruct (spent_strong li) as [el|]; simpl.
  - destruct (text el) as [a|]; simpl.
    + destruct (truthy a) eqn:Ha; simpl; split; try lia; repeat constructor.
      apply truthy_app_l, Ha.
    + destruct (spent_text li) as [t|]; simpl; [|split; [lia | constructor]].
      destruct (truthy (strip t)) eqn:Hs; simpl; split; try lia; repeat constructor; assumption.
  - destruct (spent_text li) as [t|]; simpl; [|split; [lia | constructor]].
    destruct (truthy (strip t)) eqn:Hs; simpl; split; try lia; repeat constructor; assumption.
Qed.

Lemma location_part_shape ul :
  length (location_part ul) <= 1 /\ Forall (fun p => truthy p = true) (location_part ul).
Proof.
  unfold location_part.
  destruct (location ul) as [li|]; simpl; [|split; [lia | constructor]].
  match goal with
  | |- context [if truthy ?c then [?c] else []] =>
      destruct (truthy c) eqn:Hc; simpl; split; try lia; repeat constructor; assumption
  end.
Qed.

(** X6: the client summary of a tile has at most four parts (payment,
    rating, spent, location, in this order), none of them empty. *)
Theorem client_parts_at_most_four_nonempty (tile : Tile) :
  length (client_parts_of tile) <= 4 /\
  Forall (fun p => truthy p = true) (client_parts_of tile).
Proof.
  unfold client_parts_of. destruct (client_ul tile) as [ul|]; [|split; [simpl; lia | constructor]].
  destruct (payment_part_shape ul) as [Hp1 Hp2], (rating_part_shape ul) as [Hr1 Hr2],
           (spent_part_shape ul) as [Hs1 Hs2], (location_part_shape ul) as [Hl1 Hl2].
  split.
  - rewrite !length_app. lia.
  - rewrite !Forall_app. auto.
Qed.







End EmittedRecords.

(** ** Message size and transport *)

Section MessageFacts.

Variable datetime : Type.
Variable strftime_short : datetime -> str.
Variable fromisoformat : str -> result datetime.

Lemma truncate_description_bound (d : str) :
  length (truncate_description d) <= 800 + length ellipsis_marker /\
  take 800 (truncate_description d) = take 800 d.
Proof.
  unfold truncate_description. destruct (800 <? length d) eqn:Hlen.
  - apply Nat.ltb_lt in Hlen. split.
    + rewrite length_app, length_take. lia.
    + rewrite take_app_le by (rewrite length_take; lia).
      rewrite take_take. f_equal.
  - apply Nat.ltb_ge in Hlen. split; [lia | reflexivity].
Qed.

Lemma short_date_of_text (s : str) (e : exn) :
  fromisoformat (remove_char 90%N s) = Raise e ->
  _short_date strftime_short fromisoformat (VStr s) = take 16 s.
Proof.
  intros Hiso. unfold _short_date. destruct s as [|c s]; [reflexivity|].
  cbn [truthy negb]. rewrite Hiso. destruct (16 <=? length (c :: s)) eqn:Hlen; [reflexivity|].
  apply Nat.leb_gt in Hlen. rewrite take_ge by lia. reflexivity.
Qed.

(** X16: the size of a message.  Its length is that of the title, the
    URL and the date line plus the description part and 23 characters of
    separators and line breaks; the description part never exceeds 803
    characters and agrees with the description on the first 800; a date
    text that does not parse as an ISO date is cut to 16 characters. *)
Theorem message_length_is_bounded (job : Job datetime) :
  let shown := truncate_description (_val (job_description job)) in
  length (format_job_message strftime_short fromisoformat job) =
    length (_val (job_title job)) + length (_val (job_url job)) +
    length (_short_date strftime_short fromisoformat (posted_date job)) +
    length shown + 23 /\
  length shown <= 803 /\
  take 800 shown = take 800 (_val (job_description job)) /\
  (forall s e, posted_date job = VStr s ->
     fromisoformat (remove_char 90%N s) = Raise e ->
     _short_date strftime_short fromisoformat (posted_date job) = take 16 s /\
     length (_short_date strftime_short fromisoformat (posted_date job)) <= 16).
Proof.
  intros shown. subst shown.
  destruct (truncate_description_bound (_val (job_description job))) as [Hb Ht].
  split; [|split; [exact Hb | split; [exact Ht|]]].
  - unfold format_job_message, message_lines. cbn [join].
    rewrite !length_app. change (length separator) with 3.
    change (length newline) with 1. lia.
  - intros s e -> Hiso. rewrite (short_date_of_text s e Hiso).
    split; [reflexivity|]. rewrite length_take. lia.
Qed.

End MessageFacts.

Section TransportFacts.

Import TelegramService.

Variable settings : Settings.
Variable post : Request -> result Response.
Variable datetime : Type.
Variable strftime_short : datetime -> str.
Variable fromisoformat : str -> result datetime.

(** X17: without a bot token or without a chat id (not set, or empty)
    nothing is sent: [send_telegram_message] returns [False] and
    [notify_new_job] makes no request. *)
Theorem no_credentials_no_request (message : str) (job : Job datetime) :
  truthy_opt (TELEGRAM_BOT_TOKEN settings) = false \/
  truthy_opt (TELEGRAM_CHAT_ID settings) = false ->
  send_telegram_message settings post message = (false, []) /\
  notify_new_job settings post strftime_short fromisoformat job = [].
Proof.
  intros H.
  assert (_get_telegram_params settings = None) as Hnone.
  { unfold _get_telegram_params. destruct H as [-> | ->]; simpl; [reflexivity|].
    rewrite orb_true_r. reflexivity. }
  unfold notify_new_job, send_telegram_message. rewrite Hnone. split; reflexivity.
Qed.

(** X18: with a token and a chat id, a notification is exactly one POST
    to the bot's [sendMessage] URL, with the formatted message as text,
    the chat id, previews disabled, a time-out of 20 and the thread id
    only when it is set and not empty; [send_telegram_message] returns
    what the response's [ok] says and [False] when the POST raises. *)
Theorem one_request_per_notification (tk c : str) (job : Job datetime) :
  TELEGRAM_BOT_TOKEN settings = Some tk -> truthy tk = true ->
  TELEGRAM_CHAT_ID settings = Some c -> truthy c = true ->
  let message := format_job_message strftime_short fromisoformat job in
  let request :=
    {| request_url := lit "https://api.telegram.org/bot" ++ tk ++ lit "/sendMessage";
       request_json :=
         {| payload_chat_id := c;
            payload_text := message;
            disable_web_page_preview := true;
            message_thread_id :=
              match TELEGRAM_THREAD_ID settings with
              | Some th => if truthy th then Some th else None
              | None => None
              end |};
       request_timeout := 20 |} in
  notify_new_job settings post strftime_short fromisoformat job = [request] /\
  send_telegram_message settings post message =
    (match post request with Ok resp => ok resp | Raise _ => false end, [request]).
Proof.
  intros Htk Htkt Hc Hct message request. subst request.
  assert (forall m, send_telegram_message settings post m =
            (let request :=
               {| request_url := lit "https://api.telegram.org/bot" ++ tk ++ lit "/sendMessage";
                  request_json :=
                    {| payload_chat_id := c;
                       payload_text := m;
                       disable_web_page_preview := true;
                       message_thread_id :=
                         match TELEGRAM_THREAD_ID settings with
                         | Some th => if truthy th then Some th else None
                         | None => None
                         end |};
                  request_timeout := 20 |} in
             (match post request with Ok resp => ok resp | Raise _ => false end, [request])))
    as Hsend.
  { intros m. unfold send_telegram_message, _get_telegram_params.
    rewrite Htk, Hc. simpl. rewrite Htkt, Hct. simpl.
    destruct (TELEGRAM_THREAD_ID settings) as [th|]; simpl.
    - destruct (truthy th); destruct (post _); reflexivity.
    - destruct (post _); reflexivity. }
  split; [|apply Hsend].
  unfold notify_new_job. fold message. rewrite Hsend. reflexivity.
Qed.

End TransportFacts.

(** ** The composed description *)

Lemma join_ends_with_last (sep d : str) (xs : list str) :
  exists lines, join sep (xs ++ [d]) = lines ++ d.
Proof.
  induction xs as [|x xs [lines IH]].
  - exists []. reflexivity.
  - destruct (xs ++ [d]) as [|y ys] eqn:Hxs; [destruct xs; discriminate|].
    exists (x ++ sep ++ lines). change ((x :: xs) ++ [d]) with (x :: (xs ++ [d])).
    rewrite Hxs. change (join sep (x :: y :: ys)) with (x ++ sep ++ join sep (y :: ys)).
    rewrite IH, <- !app_assoc. reflexivity.
Qed.

(** X7: the composed description of a tile ends with the raw
    description; it is the raw description alone when there is neither
    client information nor a proposals text; with all three present it
    is the client line, the proposals line and the description, each
    line followed by a line holding a dash. *)
Theorem composed_description_layout (client_parts : list str) (proposals_text description_text : str) :
  (exists lines, compose_description client_parts proposals_text description_text =
                 lines ++ description_text) /\
  (client_parts = [] -> proposals_text = [] ->
   compose_description client_parts proposals_text description_text = description_text) /\
  (truthy (join (lit " | ") client_parts) = true -> truthy proposals_text = true ->
   truthy description_text = true ->
   compose_description client_parts proposals_text description_text =
     lit "Client: " ++ join (lit " | ") client_parts ++ newline ++ lit "-" ++ newline ++
     lit "Proposals: " ++ proposals_text ++ newline ++ lit "-" ++ newline ++
     description_text).
Proof.
  assert (forall parts : list str,
            match parts with [] => [] | _ :: _ => join (lit " | ") parts end =
            join (lit " | ") parts) as Hinfo by (intros []; reflexivity).
  unfold compose_description. rewrite Hinfo.
  split; [|split].
  - destruct description_text as [|c d].
    + eexists. symmetry. apply app_nil_r.
    + cbn [truthy]. rewrite app_assoc. apply join_ends_with_last.
  - intros -> ->. simpl. destruct description_text; reflexivity.
  - intros -> -> ->. cbn [app join]. rewrite <- !app_assoc. reflexivity.
Qed.

(** ** Session manager *)

Section SessionFacts.

Import SessionManager.

Variable L : Launcher.

(** The versions tried, in order: the whole list once per attempt. *)
Definition launch_schedule (chrome_versions : list N) (max_attempts : nat) : list N :=
  concat (replicate max_attempts chrome_versions).

Lemma try_versions_app k a b :
  try_versions L k (a ++ b) =
    match try_versions L k a with
    | (Some d, k') => (Some d, k')
    | (None, k') => try_versions L k' b
    end.
Proof.
  revert k; induction a as [|v a IH]; intros k; simpl; [reflexivity|].
  destruct (uc_chrome L k v); [reflexivity | apply IH].
Qed.

Lemma try_attempts_flat k chrome_versions n :
  try_attempts L k chrome_versions n =
  try_versions L k (launch_schedule chrome_versions n).
Proof.
  unfold launch_schedule. revert k; induction n as [|n IH]; intros k; simpl; [reflexivity|].
  rewrite try_versions_app. destruct (try_versions L k chrome_versions) as [[d|] k'];
    [reflexivity | apply IH].
Qed.

Lemma try_versions_none k vs :
  (try_versions L k vs).1 = None <->
  forall i v, vs !! i = Some v -> exists e, uc_chrome L (k + i) v = Raise e.
Proof.
  revert k; induction vs as [|v vs IH]; intros k; simpl.
  - split; [intros _ i v' H; destruct i; discriminate | reflexivity].
  - destruct (uc_chrome L k v) as [d|e] eqn:Hk; simpl.
    + split; [discriminate|]. intros H. destruct (H 0 v eq_refl) as [e He].
      rewrite Nat.add_0_r in He. congruence.
    + rewrite IH. split.
      * intros H [|i] v' Hv'.
        -- injection Hv' as <-. rewrite Nat.add_0_r. eauto.
        -- replace (k + S i) with (S k + i) by lia. apply H, Hv'.
      * intros H i v' Hv'. replace (S k + i) with (k + S i) by lia. apply H, Hv'.
Qed.

Lemma try_versions_first k vs i v d :
  vs !! i = Some v -> uc_chrome L (k + i) v = Ok d ->
  (forall j v', j < i -> vs !! j = Some v' -> exists e, uc_chrome L (k + j) v' = Raise e) ->
  try_versions L k vs = (Some d, S (k + i)).
Proof.
  revert k i; induction vs as [|v0 vs IH]; intros k i Hi Hok Hbefore; [destruct i; discriminate|].
  destruct i as [|i]; simpl in *.
  - injection Hi as ->. rewrite Nat.add_0_r in *. rewrite Hok. reflexivity.
  - destruct (Hbefore 0 v0 ltac:(lia) eq_refl) as [e He]. rewrite Nat.add_0_r in He.
    rewrite He. rewrite (IH (S k) i Hi).
    + f_equal. lia.
    + replace (S k + i) with (k + S i) by lia. exact Hok.
    + intros j v' Hj Hv'. replace (S k + j) with (k + S j) by lia.
      apply (Hbefore (S j) v'); [lia | exact Hv'].
Qed.

Lemma try_versions_count k vs : k <= (try_versions L k vs).2 <= k + length vs.
Proof.
  revert k; induction vs as [|v vs IH]; intros k; simpl; [lia|].
  destruct (uc_chrome L k v); simpl; [lia|]. specialize (IH (S k)). lia.
Qed.

(** X19: the launches are tried attempt by attempt and, within an
    attempt, version by version; the session returned is that of the
    first launch that does not raise. *)
Theorem first_successful_launch_wins
    (chrome_versions : list N) (max_attempts i : nat) (v : N) (d : Session) :
  launch_schedule chrome_versions max_attempts !! i = Some v ->
  uc_chrome L i v = Ok d ->
  (forall j v', j < i -> launch_schedule chrome_versions max_attempts !! j = Some v' ->
     exists e, uc_chrome L j v' = Raise e) ->
  get_driver_with_retry L chrome_versions max_attempts = Some d.
Proof.
  intros Hi Hok Hbefore. unfold get_driver_with_retry.
  rewrite try_attempts_flat, (try_versions_first 0 _ i v d Hi Hok Hbefore). reflexivity.
Qed.

(** X20: [get_driver_with_retry] returns [None] exactly when every
    scheduled launch raises and the Selenium Manager fallback, given the
    first candidate binary that exists, raises too; when all scheduled
    launches raise its result is that of the fallback; and it makes at
    most [max_attempts] times the number of versions hardened launches. *)
Theorem no_session_only_after_every_launch_failed
    (chrome_versions : list N) (max_attempts : nat) :
  (get_driver_with_retry L chrome_versions max_attempts = None <->
   (forall i v, launch_schedule chrome_versions max_attempts !! i = Some v ->
      exists e, uc_chrome L i v = Raise e) /\
   exists e, webdriver_chrome L (List.find (path_exists L) chrome_candidate_paths) = Raise e) /\
  ((forall i v, launch_schedule chrome_versions max_attempts !! i = Some v ->
      exists e, uc_chrome L i v = Raise e) ->
   get_driver_with_retry L chrome_versions max_attempts = selenium_fallback L) /\
  (try_attempts L 0 chrome_versions max_attempts).2 <= max_attempts * length chrome_versions.
Proof.
  unfold get_driver_with_retry. rewrite try_attempts_flat.
  pose proof (try_versions_none 0 (launch_schedule chrome_versions max_attempts)) as Hnone.
  simpl in Hnone.
  split; [|split].
  - destruct (try_versions L 0 _) as [[d|] k'] eqn:Htry; simpl in Hnone.
    + split; [discriminate|]. intros [Hall _]. apply Hnone in Hall. discriminate.
    + unfold selenium_fallback. split.
      * intros Hfb. split; [apply Hnone; reflexivity|].
        destruct (webdriver_chrome L _) as [s|e]; [discriminate | eauto].
      * intros [_ [e He]]. rewrite He. reflexivity.
  - intros Hall. apply Hnone in Hall.
    destruct (try_versions L 0 _) as [[d|] k']; simpl in Hall; [discriminate | reflexivity].
  - pose proof (try_versions_count 0 (launch_schedule chrome_versions max_attempts)) as [_ Hc].
    simpl in Hc. etransitivity; [exact Hc|].
    unfold launch_schedule. clear. induction max_attempts as [|n IH]; simpl; [lia|].
    rewrite length_app. lia.
Qed.

Variable chrome_versions : list N.
Variable max_attempts : nat.
Variable username password : str.
Variable verification_pause : nat.

Lemma probe_answers (d : Driver) :
  is_driver_alive (Some d) =
    Ok (match execute_script d (lit "return 1") with Ok _ => true | Raise _ => false end).
Proof. unfold is_driver_alive. simpl. destruct (execute_script d _); reflexivity. Qed.

(** X21: [recreate_driver_if_needed] never raises.  A session that
    answers the probe is returned as it is: no quit, no launch, no login.
    Otherwise the old session, if there is one, is quit, a new one is
    asked of [get_driver_with_retry] and returned, and the login runs on
    it exactly when there is one. *)
Theorem recreate_only_when_probe_fails (current_driver : option Session) :
  let new_driver := get_driver_with_retry L chrome_versions max_attempts in
  (forall s, current_driver = Some s ->
     execute_script (session_driver s) (lit "return 1") = Ok () ->
     recreate_driver_if_needed L chrome_versions max_attempts username password
       verification_pause current_driver = Ok (current_driver, [])) /\
  (current_driver = None \/
   (exists s e, current_driver = Some s /\
                execute_script (session_driver s) (lit "return 1") = Raise e) ->
   recreate_driver_if_needed L chrome_versions max_attempts username password
     verification_pause current_driver =
   Ok (new_driver,
       match current_driver with Some _ => [QuitCalled] | None => [] end ++
       [Launched] ++
       match new_driver with
       | Some n => [LoggedIn (login_to_upwork username password verification_pause (login_page n))]
       | None => []
       end)) /\
  exists r, recreate_driver_if_needed L chrome_versions max_attempts username password
              verification_pause current_driver = Ok r.
Proof.
  intros new_driver. subst new_driver. unfold recreate_driver_if_needed.
  split; [|split].
  - intros s -> Hs. rewrite probe_answers, Hs. reflexivity.
  - intros [-> | [s [e [-> Hs]]]]; [reflexivity|].
    rewrite probe_answers, Hs. reflexivity.
  - destruct current_driver as [s|]; [|simpl; eauto].
    rewrite probe_answers. simpl.
    destruct (execute_script (session_driver s) _); simpl; eauto.
Qed.

(** X22: a login never types the password unless the page was loaded,
    the newest window was selected and the user name was typed and
    confirmed, in this order; when the login page cannot be loaded
    nothing is done at all. *)
Theorem password_typed_only_after_username (page : LoginPage) :
  (PasswordTyped ∈ login_to_upwork username password verification_pause page ->
   exists h rest,
     login_to_upwork username password verification_pause page =
       [Navigated; Slept 25; Switched h; UsernameTyped; UsernameEntered; PasswordTyped] ++ rest) /\
  (forall e, get_login_page page = Raise e ->
     login_to_upwork username password verification_pause page = []).
Proof.
  unfold login_to_upwork, open_login_page, submit_credentials. split.
  - destruct (get_login_page page); [|intros H; inversion H].
    destruct (window_handles page) as [all_windows|];
      [|intros H; repeat (apply elem_of_cons in H as [H | H]; [discriminate|]); inversion H].
    destruct (List.last (List.map Some all_windows) None) as [h|];
      [|intros H; repeat (apply elem_of_cons in H as [H | H]; [discriminate|]); inversion H].
    destruct (switch_to_window page h);
      [|intros H; repeat (apply elem_of_cons in H as [H | H]; [discriminate|]); inversion H].
    destruct (_ ← username_field page; send_keys _ (Text username)); simpl;
      [|intros H; repeat (apply elem_of_cons in H as [H | H]; [discriminate|]); inversion H].
    destruct (_ ← username_field page; send_keys _ ENTER); simpl;
      [|intros H; repeat (apply elem_of_cons in H as [H | H]; [discriminate|]); inversion H].
    destruct (_ ← password_field page; send_keys _ (Text password)); simpl;
      [|intros H; repeat (apply elem_of_cons in H as [H | H]; [discriminate|]); inversion H].
    intros _. eexists _, _. reflexivity.
  - intros e ->. reflexivity.
Qed.

End SessionFacts.

(** ** The main loop *)

Section MainFacts.

Import SessionManager.

Variable datetime : Type.
Variable str_lower : str -> str.
Variable config : Config.
Variable generate_job_id : str -> str.
Variable clean_job_proposals : str -> result str.
Variable calculate_posted_datetime : str -> result (pyval datetime).
Variable clock : nat -> datetime.
Variable db_raises : statement datetime -> bool.
Variable chrome_versions : list N.
Variable max_attempts : nat.
Variable username password : str.
Variable verification_pause : nat.
Variable scrape_interval_minutes : nat.

Local Abbreviation main_loop' :=
  (main_loop datetime str_lower config generate_job_id clean_job_proposals
     calculate_posted_datetime clock db_raises chrome_versions max_attempts
     username password verification_pause scrape_interval_minutes).
Local Abbreviation main' :=
  (main datetime str_lower config generate_job_id clean_job_proposals
     calculate_posted_datetime clock db_raises chrome_versions max_attempts
     username password verification_pause scrape_interval_minutes).

Lemma main_loop_result driver iterations w :
  (main_loop' driver iterations w).1.1 =
    StillRunning (match iterations with [] => driver | _ :: _ => None end) \/
  (main_loop' driver iterations w).1.1 = Returned (Some false).
Proof.
  revert driver w; induction iterations as [|L rest IH]; intros driver w; simpl.
  - by left.
  - destruct (get_driver_with_retry L chrome_versions max_attempts) as [s|].
    + destruct (scrape_cycle _ _ _ _ _ _ _ (pages s) w) as [[[]|e] w'].
      * specialize (IH None w').
        destruct (main_loop' None rest w') as [[r ev] w'']. simpl in *.
        destruct IH as [-> | ->]; [left; destruct rest; reflexivity | by right].
      * by right.
    + specialize (IH None w).
      destruct (main_loop' None rest w) as [[r ev] w'']. simpl in *.
      destruct IH as [-> | ->]; [left; destruct rest; reflexivity | by right].
Qed.

(** X23: [main] never returns [True].  It is still running, or it has
    returned [False] or nothing, or its [finally] block has raised; and
    once the loop has gone through an iteration and is still running,
    no session is held: the browser of the cycle was closed. *)
Theorem main_never_returns_true
    (connect_to_db create_db : result unit) (first : Launcher)
    (iterations : list Launcher) (w : World datetime) :
  (main' connect_to_db create_db first iterations w).1.1 <> Returned (Some true) /\
  (forall driver d,
     iterations <> [] ->
     (main_loop' driver iterations w).1.1 = StillRunning d -> d = None).
Proof.
  split.
  - unfold main. destruct connect_to_db; [|discriminate].
    destruct create_db; [|discriminate].
    destruct (get_driver_with_retry first chrome_versions max_attempts) as [s|]; [|discriminate].
    destruct (open_login_page (login_page s)) as [events [[]|e]]; [|discriminate].
    destruct (main_loop_result (Some s) iterations w) as [Hr | Hr];
      destruct (main_loop' (Some s) iterations w) as [[r ev] w']; simpl in *; congruence.
  - intros driver d Hne Hrun.
    destruct (main_loop_result driver iterations w) as [Hr | Hr]; [|congruence].
    rewrite Hr in Hrun. destruct iterations; [contradiction|]. congruence.
Qed.

(** X24: how [main] ends before the loop.  When [connect_to_db] raises,
    [main] does not return [False]: its [finally] block raises on the
    unbound cursor.  When [create_db] raises, or the opening steps of the
    first login raise, it returns [False].  When the first launch yields
    no session it returns nothing, without retrying.  In all four cases
    the table is untouched, whatever later launches would have given. *)
Theorem main_gives_up_before_the_loop
    (connect_to_db create_db : result unit) (first : Launcher)
    (iterations : list Launcher) (w : World datetime) :
  let res := main' connect_to_db create_db first iterations w in
  (forall e, connect_to_db = Raise e ->
     res.1.1 = Raised "UnboundLocalError"%string /\ res.2 = w) /\
  (forall e, connect_to_db = Ok () -> create_db = Raise e ->
     res.1.1 = Returned (Some false) /\ res.2 = w) /\
  (connect_to_db = Ok () -> create_db = Ok () ->
   get_driver_with_retry first chrome_versions max_attempts = None ->
   res.1.1 = Returned None /\ res.2 = w) /\
  (forall s e events, connect_to_db = Ok () -> create_db = Ok () ->
     get_driver_with_retry first chrome_versions max_attempts = Some s ->
     open_login_page (login_page s) = (events, Raise e) ->
     res.1.1 = Returned (Some false) /\ res.2 = w).
Proof.
  intros res. subst res. unfold main.
  split; [|split; [|split]].
  - intros e ->. split; reflexivity.
  - intros e -> ->. split; reflexivity.
  - intros -> -> ->. split; reflexivity.
  - intros s e events -> -> -> ->. split; reflexivity.
Qed.

(** What the processing of one entry keeps, every run of the loop
    keeps. *)
Lemma main_loop_preserves (P : World datetime -> Prop) :
  (forall e w, P w ->
     P (persist_entry generate_job_id clean_job_proposals calculate_posted_datetime
          clock db_raises e w).2) ->
  forall iterations driver w, P w -> P (main_loop' driver iterations w).2.
Proof.
  intros Hstep iterations. induction iterations as [|L rest IH]; intros driver w Hw; simpl;
    [assumption|].
  destruct (get_driver_with_retry L chrome_versions max_attempts) as [s|].
  - pose proof (scrape_cycle_preserves datetime str_lower config generate_job_id
                  clean_job_proposals calculate_posted_datetime clock db_raises
                  P Hstep (pages s) w Hw) as Hc.
    destruct (scrape_cycle _ _ _ _ _ _ _ (pages s) w) as [[[]|e] w']; simpl in Hc; [|assumption].
    specialize (IH None w' Hc). destruct (main_loop' None rest w') as [[r ev] w'']. exact IH.
  - specialize (IH None w Hw). destruct (main_loop' None rest w) as [[r ev] w'']. exact IH.
Qed.

Lemma main_preserves (P : World datetime -> Prop) :
  (forall e w, P w ->
     P (persist_entry generate_job_id clean_job_proposals calculate_posted_datetime
          clock db_raises e w).2) ->
  forall connect_to_db create_db first iterations w,
    P w -> P (main' connect_to_db create_db first iterations w).2.
Proof.
  intros Hstep connect_to_db create_db first iterations w Hw. unfold main.
  destruct connect_to_db; [|assumption]. destruct create_db; [|assumption].
  destruct (get_driver_with_retry first chrome_versions max_attempts) as [s|]; [|assumption].
  destruct (open_login_page (login_page s)) as [events [[]|e]]; [|assumption].
  pose proof (main_loop_preserves P Hstep iterations (Some s) w Hw) as H.
  destruct (main_loop' (Some s) iterations w) as [[r ev] w']. exact H.
Qed.

(** X25: over any number of cycles of [main], whatever the browsers
    show and wherever the database raises: job ids that were pairwise
    distinct stay so; no row is deleted or reordered, and the rows that
    were there keep everything but proposals and update time; and as
    many notifications are sent as rows are added. *)
Theorem main_keeps_the_table_sound
    (connect_to_db create_db : result unit) (first : Launcher)
    (iterations : list Launcher) (w : World datetime) :
  let w' := (main' connect_to_db create_db first iterations w).2 in
  (NoDup (List.map row_job_id (jobs w)) -> NoDup (List.map row_job_id (jobs w'))) /\
  (exists old new, jobs w' = old ++ new /\ Forall2 (same_but_proposals datetime) (jobs w) old) /\
  length (notifications w') + length (jobs w) = length (notifications w) + length (jobs w').
Proof.
  intros w'. subst w'. split; [|split].
  - apply (main_preserves (fun w0 => NoDup (List.map row_job_id (jobs w0)))).
    intros e w0. apply persist_entry_ids_unique.
  - apply (main_preserves (table_extends datetime w)).
    + intros e w0. apply persist_entry_table_extends.
    + exists (jobs w), []. rewrite app_nil_r. split; [reflexivity|].
      clear. induction (jobs w); constructor; [apply same_but_proposals_refl | assumption].
  - assert (forall k m w0,
              length (notifications w0) + k = length (jobs w0) + m ->
              length (notifications (main' connect_to_db create_db first iterations w0).2) + k =
              length (jobs (main' connect_to_db create_db first iterations w0).2) + m) as Hgen.
    { intros k m. apply (main_preserves
        (fun w1 => length (notifications w1) + k = length (jobs w1) + m)).
      intros e w1 Hw1. apply persist_entry_counts_gen, Hw1. }
    specialize (Hgen (length (jobs w)) (length (notifications w)) w). lia.
Qed.

(** X26: while no browser can be launched the loop only retries: it is
    still running after any number of such iterations, and the table,
    the committed table and the notifications are as before. *)
Theorem failed_launches_only_retry (driver : option Session)
    (iterations : list Launcher) (w : World datetime) :
  Forall (fun L => get_driver_with_retry L chrome_versions max_attempts = None) iterations ->
  (main_loop' driver iterations w).2 = w /\
  (main_loop' driver iterations w).1.1 =
    StillRunning (match iterations with [] => driver | _ :: _ => None end).
Proof.
  revert driver; induction iterations as [|L rest IH]; intros driver Hall; simpl;
    [split; reflexivity|].
  apply Forall_cons in Hall as [HL Hrest]. rewrite HL.
  destruct (IH None Hrest) as [Hw Hr].
  destruct (main_loop' None rest w) as [[r ev] w'']. simpl in *.
  split; [exact Hw|]. rewrite Hr. destruct rest; reflexivity.
Qed.

End MainFacts.

(** * The model on concrete pages *)

Definition sample_config : Config :=
  {| BANNED_COUNTRIES := Some [lit "India"; lit "Pakistan"];
     SEARCH_PAGES := Some [lit "https://u.com/nx/search/jobs/?q=rocq"] |}.

Definition elem (s : string) : Element := {| text := Ok (lit s) |}.

Definition no_such {A} : result A := Raise "NoSuchElementException"%string.

Definition sample_container (desc : string) : Container :=
  {| find_p := Ok [elem desc];
     find_div := Ok [];
     find_span := Ok [];
     find_proposals := Ok (elem "Proposals: 5 to 10");
     find_posted := Ok (elem "2 days ago") |}.

Definition sample_anchor (h t desc : string) : Anchor :=
  {| href := Ok (Some (lit h));
     anchor_text := Ok (lit t);
     ancestor_section := Ok (sample_container desc);
     ancestor_article := no_such;
     ancestor_div := no_such |}.

Definition sample_tile (h t desc props : string) (ul : result ClientUl) : Tile :=
  {| title_link := Ok {| title_href := Ok (Some (lit h)); title_text := Ok (lit t) |};
     posted_small := Ok (elem "3 hours ago");
     desc_p := Ok (elem desc);
     prop_li := Ok (elem props);
     tag_spans := Ok [elem "Rocq"; elem "OCaml"];
     client_ul := ul |}.

Definition sample_client (country : string) : ClientUl :=
  {| payment_verified := Ok ();
     payment_unverified := no_such;
     rating_value := Ok (elem "4.9");
     total_spent := Ok {| spent_strong := Ok (elem "$10K+"); spent_text := Ok (lit "$10K+ spent") |};
     location := Ok {| location_span := Ok (elem country); location_text := Ok (lit country) |} |}.

(** Helpers standing for [utils.job_helpers]: the title as identifier,
    cleaners that return their argument. *)
Definition sample_id (t : str) : str := t.
Definition sample_clean (s : str) : result str := Ok s.
Definition sample_posted (s : str) : result (pyval N) := Ok (VStr s).
Definition sample_clock (n : nat) : N := N.of_nat n.
Definition db_sound (_ : statement N) : bool := false.

Definition empty_world : World N :=
  {| jobs := []; committed := []; notifications := []; ticks := 0 |}.

Example collect_job_entries_sample :
  collect_job_entries ascii_lower sample_config
    [ sample_anchor "https://u.com/jobs/a/?ref=1" "Job A" "Build a parser";
      sample_anchor "https://u.com/jobs/a/?ref=2" "Job A" "Build a parser";
      sample_anchor "https://u.com/jobs/b" "  " "Anything";
      sample_anchor "https://u.com/jobs/c" "Job C" "Remote work, India based team" ]
  = [ {| url := lit "https://u.com/jobs/a"; title := lit "Job A";
         description := lit "Build a parser";
         proposals := lit "Proposals: 5 to 10"; posted := lit "2 days ago"; tags := [] |} ].
Proof. vm_compute. reflexivity. Qed.

Example scrape_search_page_sample :
  scrape_search_page ascii_lower sample_config
    (Ok [ sample_tile "https://u.com/jobs/x/?ref=s" "Job X" "Prove a lemma" "Less than 5"
            (Ok (sample_client "Location United States"));
          sample_tile "https://u.com/jobs/y" "Job Y" "Prove a lemma" "Less than 5"
            (Ok (sample_client "Location India")) ])
  = Ok [ {| url := lit "https://u.com/jobs/x"; title := lit "Job X";
            description :=
              lit "Client: Payment verified | rating 4.9 | $10K+ spent | United States" ++
              newline ++ lit "-" ++ newline ++
              lit "Proposals: Less than 5" ++ newline ++ lit "-" ++ newline ++
              lit "Prove a lemma";
            proposals := lit "Less than 5"; posted := lit "3 hours ago";
            tags := [lit "Rocq"; lit "OCaml"] |} ].
Proof. vm_compute. reflexivity. Qed.

(** C7 on a page: an anchor and a tile whose title is blank. *)
Definition blank : str := [32; 9; 10; 160]%N.

Definition blank_anchor : Anchor :=
  {| href := Ok (Some (lit "https://u.com/jobs/b"));
     anchor_text := Ok blank;
     ancestor_section := Ok (sample_container "Anything");
     ancestor_article := no_such;
     ancestor_div := no_such |}.

Definition blank_title_link : TitleLink :=
  {| title_href := Ok (Some (lit "https://u.com/jobs/b")); title_text := Ok blank |}.

Definition blank_tile : Tile :=
  {| title_link := Ok blank_title_link;
     posted_small := no_such; desc_p := no_such; prop_li := no_such;
     tag_spans := no_such; client_ul := no_such |}.

Lemma blank_title_emits_no_record_witness :
  forallb is_space blank = true /\
  collect_link ascii_lower sample_config (∅, []) blank_anchor = (∅, []) /\
  scrape_tile ascii_lower sample_config (∅, []) blank_tile = (∅, []).
Proof.
  destruct (blank_title_emits_no_record ascii_lower sample_config (∅, [])
              blank_anchor blank_tile blank_title_link blank eq_refl) as [Hloose Htile].
  split; [reflexivity|].
  split; [exact (Hloose eq_refl) | exact (Htile eq_refl eq_refl)].
Defined.

(** C10 on a page: the first anchor is refused for its description, the
    second has the same canonical URL and a harmless description. *)
Lemma banned_anchor_blocks_its_url_witness :
  mentions_banned ascii_lower (getattr_list (BANNED_COUNTRIES sample_config))
    (ascii_lower (lit "Remote work, India based team")) = true /\
  Forall (fun e => url e <> lit "https://u.com/jobs/c")
    (collect_job_entries ascii_lower sample_config
       ([] ++ sample_anchor "https://u.com/jobs/c/?ref=1" "Job C" "Remote work, India based team"
           :: [sample_anchor "https://u.com/jobs/c/?ref=2" "Job C" "Build a parser"])).
Proof.
  split; [reflexivity|].
  apply Forall_forall.
  apply (banned_anchor_blocks_its_url ascii_lower sample_config []
           [sample_anchor "https://u.com/jobs/c/?ref=2" "Job C" "Build a parser"]
           (sample_anchor "https://u.com/jobs/c/?ref=1" "Job C" "Remote work, India based team")
           (lit "https://u.com/jobs/c/?ref=1") (lit "Job C")
           (lit "Remote work, India based team") (lit "Proposals: 5 to 10") (lit "2 days ago"));
    try reflexivity.
  simpl. apply not_elem_of_empty.
Defined.

(** C3 on a table that already holds the job. *)
Definition stored_row : Row N :=
  {| row_job_id := lit "Job A"; row_job_url := lit "https://u.com/jobs/a";
     row_job_title := lit "Job A"; row_posted_date := VNone;
     row_job_description := lit "Build a parser"; row_job_tags := lit "[]";
     row_job_proposals := lit "Less than 5"; row_updated_at := None |}.

Definition other_row : Row N :=
  {| row_job_id := lit "Job B"; row_job_url := lit "https://u.com/jobs/b";
     row_job_title := lit "Job B"; row_posted_date := VNone;
     row_job_description := lit "Another"; row_job_tags := lit "[]";
     row_job_proposals := lit "5 to 10"; row_updated_at := None |}.

Definition stored_world : World N :=
  {| jobs := [stored_row; other_row]; committed := [stored_row; other_row];
     notifications := []; ticks := 7 |}.

Definition resighted_entry : Entry :=
  {| url := lit "https://u.com/jobs/a-new"; title := lit "Job A";
     description := lit "Build a parser, reworded";
     proposals := lit "10 to 15"; posted := lit "1 hour ago"; tags := [] |}.

Lemma existing_job_only_updates_proposals_witness :
  0 < length (List.filter (has_id (sample_id (title resighted_entry))) (jobs stored_world)) /\
  (persist_entry sample_id sample_clean sample_posted sample_clock db_sound
     resighted_entry stored_world).1 = Ok () /\
  jobs (persist_entry sample_id sample_clean sample_posted sample_clock db_sound
          resighted_entry stored_world).2 =
    [ {| row_job_id := lit "Job A"; row_job_url := lit "https://u.com/jobs/a";
         row_job_title := lit "Job A"; row_posted_date := VNone;
         row_job_description := lit "Build a parser"; row_job_tags := lit "[]";
         row_job_proposals := lit "10 to 15"; row_updated_at := Some 7%N |};
      other_row ] /\
  notifications (persist_entry sample_id sample_clean sample_posted sample_clock db_sound
                   resighted_entry stored_world).2 = [].
Proof.
  assert (0 < length (List.filter (has_id (sample_id (title resighted_entry)))
                        (jobs stored_world))) as Hpresent.
  { vm_compute. lia. }
  destruct (existing_job_only_updates_proposals N sample_id sample_clean sample_posted
              sample_clock db_sound resighted_entry stored_world Hpresent)
    as [Hnote [_ Hrows]].
  destruct (Hrows eq_refl eq_refl eq_refl) as [Hok [Hjobs _]].
  split; [exact Hpresent|]. split; [exact Hok|]. split; [|exact Hnote].
  rewrite Hjobs. reflexivity.
Defined.

(** C1, as stated, on a search page: the proposals line of the tile
    names a banned term, the raw description and the client parts do not.
    The composed description mentions the term, yet the record is
    emitted, stored and notified. *)
Definition tile_with_banned_proposals : Tile :=
  sample_tile "https://u.com/jobs/x/?ref=s" "Job X" "Prove a lemma"
    "Less than 5 (India: 3)" no_such.

Definition search_only_browser : Browser :=
  {| best_matches := Ok [];
     search_page := fun _ => Ok [tile_with_banned_proposals] |}.

Definition composed_with_banned_term : str :=
  lit "Proposals: Less than 5 (India: 3)" ++ newline ++ lit "-" ++ newline ++
  lit "Prove a lemma".

Lemma composed_description_not_filtered :
  scrape_search_page ascii_lower sample_config (Ok [tile_with_banned_proposals]) =
    Ok [ {| url := lit "https://u.com/jobs/x"; title := lit "Job X";
            description := composed_with_banned_term;
            proposals := lit "Less than 5 (India: 3)"; posted := lit "3 hours ago";
            tags := [lit "Rocq"; lit "OCaml"] |} ] /\
  mentions_banned ascii_lower (getattr_list (BANNED_COUNTRIES sample_config))
    (ascii_lower composed_with_banned_term) = true /\
  List.map job_description
    (notifications
       (scrape_cycle ascii_lower sample_config sample_id sample_clean sample_posted
          sample_clock db_sound search_only_browser empty_world).2) =
    [Some composed_with_banned_term] /\
  List.map row_job_description
    (jobs
       (scrape_cycle ascii_lower sample_config sample_id sample_clean sample_posted
          sample_clock db_sound search_only_browser empty_world).2) =
    [composed_with_banned_term].
Proof. repeat split; vm_compute; reflexivity. Qed.

(** C2, as stated, on the best-matches page: the database raises on the
    first job's look-up; the exception leaves the cycle, and the second
    job and the search page, which the database would accept, are never
    reached. *)
Definition two_job_browser : Browser :=
  {| best_matches :=
       Ok [ sample_anchor "https://u.com/jobs/a" "Job A" "Build a parser";
            sample_anchor "https://u.com/jobs/b" "Job B" "Build a prover" ];
     search_page := fun _ =>
       Ok [sample_tile "https://u.com/jobs/x" "Job X" "Prove a lemma" "Less than 5" no_such] |}.

Definition db_fails_on_job_a (s : statement N) : bool :=
  match s with
  | SelectCount id => bool_decide (id = lit "Job A")
  | _ => false
  end.


(** The same fault on a search page stays inside the page. *)
Example search_page_fault_is_absorbed :
  scrape_cycle ascii_lower sample_config sample_id sample_clean sample_posted
    sample_clock
    (fun s => match s with SelectCount id => bool_decide (id = lit "Job X") | _ => false end)
    two_job_browser empty_world =
  (Ok (),
   (scrape_cycle ascii_lower sample_config sample_id sample_clean sample_posted
      sample_clock db_sound
      {| best_matches := best_matches two_job_browser; search_page := fun _ => Ok [] |}
      empty_world).2).
Proof. vm_compute. reflexivity. Qed.

(** ** Further pages, tables and launchers *)

(** X3 on a container with two longest texts. *)
Definition tie_container : Container :=
  {| find_p := Ok [elem "short"; elem "Job A"; elem "the longest one"];
     find_div := Ok [elem "also longest 1!"];
     find_span := Ok [];
     find_proposals := no_such;
     find_posted := no_such |}.

Definition tie_anchor : Anchor :=
  {| href := Ok (Some (lit "https://u.com/jobs/t"));
     anchor_text := Ok (lit "Job A");
     ancestor_section := no_such;
     ancestor_article := Ok tie_container;
     ancestor_div := no_such |}.

Lemma description_is_first_longest_candidate_witness :
  text_candidates (lit "Job A") tie_container =
    Ok [lit "short"; lit "the longest one"; lit "also longest 1!"] /\
  (container_fields tie_anchor (lit "Job A")).1.1 <> lit "Job A" /\
  (forall x, x ∈ [lit "short"; lit "the longest one"; lit "also longest 1!"] ->
     length x <= length (container_fields tie_anchor (lit "Job A")).1.1).
Proof.
  destruct (description_is_first_longest_candidate tie_anchor (lit "Job A") tie_container
              [lit "short"; lit "the longest one"; lit "also longest 1!"]
              eq_refl eq_refl) as [_ H].
  destruct (H ltac:(discriminate)) as (_ & Hdiff & Hlen & _).
  split; [reflexivity|]. split; [exact Hdiff | exact Hlen].
Defined.

Example tie_goes_to_the_first :
  (container_fields tie_anchor (lit "Job A")).1.1 = lit "the longest one".
Proof. reflexivity. Qed.

(** X5 on a tile that has a title link and nothing else. *)
Definition bare_title_link : TitleLink :=
  {| title_href := Ok (Some (lit " https://u.com/jobs/z/?s=1 ")); title_text := Ok (lit " Job Z ") |}.

Definition bare_tile : Tile :=
  {| title_link := Ok bare_title_link;
     posted_small := no_such; desc_p := no_such; prop_li := no_such;
     tag_spans := no_such; client_ul := no_such |}.

Lemma tile_with_missing_parts_still_emitted_witness :
  exists r,
    scrape_tile ascii_lower sample_config (∅, []) bare_tile =
      ({[lit "https://u.com/jobs/z"]} ∪ ∅, [] ++ [r]) /\
    title r = lit "Job Z" /\ proposals r = [] /\ posted r = [] /\ tags r = [] /\
    description r = [].
Proof.
  destruct (tile_with_missing_parts_still_emitted ascii_lower sample_config ∅ [] bare_tile
              bare_title_link (Some (lit " https://u.com/jobs/z/?s=1 ")) (lit " Job Z ")
              eq_refl eq_refl eq_refl eq_refl eq_refl eq_refl
              (not_elem_of_empty _) ltac:(intros _; discriminate) eq_refl eq_refl)
    as (r & Hr & Hurl & Htitle & Hprop & Hposted & Htags & _).
  exists r. split; [exact Hr|]. split; [exact Htitle|].
  destruct (Hprop _ eq_refl) as [Hp Hd].
  split; [exact Hp|]. split; [exact (Hposted _ eq_refl)|].
  split; [exact (Htags _ eq_refl) | exact Hd].
Defined.

(** X8, X11 and X15 on the table of [stored_world]. *)
Definition unseen_entry : Entry :=
  {| url := lit "https://u.com/jobs/n"; title := lit "Job N";
     description := lit "Something new";
     proposals := lit "Less than 5"; posted := lit "just now"; tags := [] |}.

Definition db_commit_fails (s : statement N) : bool :=
  match s with
  | Commit => true
  | _ => false
  end.

Lemma new_job_inserted_and_notified_once_witness :
  length (List.filter (has_id (sample_id (title unseen_entry))) (jobs stored_world)) = 0 /\
  (persist_entry sample_id sample_clean sample_posted sample_clock db_sound
     unseen_entry stored_world).1 = Ok () /\
  List.map row_job_title
    (jobs (persist_entry sample_id sample_clean sample_posted sample_clock db_sound
             unseen_entry stored_world).2) = [lit "Job A"; lit "Job B"; lit "Job N"].
Proof.
  split; [reflexivity|].
  rewrite (new_job_inserted_and_notified_once N sample_id sample_clean sample_posted
             sample_clock db_sound unseen_entry stored_world eq_refl eq_refl eq_refl eq_refl).
  split; reflexivity.
Defined.

Lemma commit_failure_after_notification_witness :
  db_commit_fails Commit = true /\
  (persist_entry sample_id sample_clean sample_posted sample_clock db_commit_fails
     unseen_entry stored_world).1 = Raise "DatabaseError"%string /\
  committed (persist_entry sample_id sample_clean sample_posted sample_clock db_commit_fails
               unseen_entry stored_world).2 = committed stored_world /\
  length (notifications
            (persist_entry sample_id sample_clean sample_posted sample_clock db_commit_fails
               unseen_entry stored_world).2) = 1.
Proof.
  destruct (commit_failure_after_notification N sample_id sample_clean sample_posted
              sample_clock db_commit_fails unseen_entry stored_world
              eq_refl eq_refl (fun _ => eq_refl) eq_refl)
    as (Hres & Hcommitted & _ & (j & Hj & _)).
  split; [reflexivity|]. split; [exact Hres|]. split; [exact Hcommitted|].
  rewrite Hj. reflexivity.
Defined.

Lemma at_most_one_statement_uncommitted_witness :
  jobs stored_world = committed stored_world /\
  one_statement_ahead N
    (persist_entries sample_id sample_clean sample_posted sample_clock db_commit_fails
       [resighted_entry; unseen_entry] stored_world).2.
Proof.
  split; [reflexivity|].
  apply (at_most_one_statement_uncommitted N sample_id sample_clean sample_posted
           sample_clock db_commit_fails [resighted_entry; unseen_entry] stored_world eq_refl).
Defined.

(** X9 and X10 on the two-job page. *)
Lemma cycle_keeps_job_ids_unique_witness :
  NoDup (job_ids N stored_world) /\
  NoDup (job_ids N
           (scrape_cycle ascii_lower sample_config sample_id sample_clean sample_posted
              sample_clock db_fails_on_job_a two_job_browser stored_world).2).
Proof.
  assert (NoDup (job_ids N stored_world)) as Hnd.
  { apply (bool_decide_unpack _). vm_compute. exact I. }
  split; [exact Hnd|].
  apply (cycle_keeps_job_ids_unique N ascii_lower sample_config sample_id sample_clean
           sample_posted sample_clock db_fails_on_job_a two_job_browser stored_world Hnd).
Defined.

Lemma second_cycle_adds_nothing_witness :
  length (notifications
            (scrape_cycle ascii_lower sample_config sample_id sample_clean sample_posted
               sample_clock db_sound two_job_browser empty_world).2) = 3 /\
  notifications
    (scrape_cycle ascii_lower sample_config sample_id sample_clean sample_posted
       sample_clock db_sound two_job_browser
       (scrape_cycle ascii_lower sample_config sample_id sample_clean sample_posted
          sample_clock db_sound two_job_browser empty_world).2).2 =
  notifications
    (scrape_cycle ascii_lower sample_config sample_id sample_clean sample_posted
       sample_clock db_sound two_job_browser empty_world).2.
Proof.
  split; [reflexivity|].
  apply (second_cycle_adds_nothing N ascii_lower sample_config sample_id sample_clean
           sample_posted sample_clock db_sound two_job_browser empty_world (fun _ => eq_refl)).
Defined.

(** X17 and X18 on two settings. *)
Definition settings_without_token : TelegramService.Settings :=
  {| TelegramService.TELEGRAM_BOT_TOKEN := Some [];
     TelegramService.TELEGRAM_CHAT_ID := Some (lit "-100123");
     TelegramService.TELEGRAM_THREAD_ID := None |}.

Definition settings_with_token : TelegramService.Settings :=
  {| TelegramService.TELEGRAM_BOT_TOKEN := Some (lit "123:abc");
     TelegramService.TELEGRAM_CHAT_ID := Some (lit "-100123");
     TelegramService.TELEGRAM_THREAD_ID := Some [] |}.

Definition post_refused (_ : TelegramService.Request) : result TelegramService.Response :=
  Ok {| TelegramService.ok := false;
        TelegramService.status_code := 403;
        TelegramService.response_text := lit "Forbidden" |}.

Lemma no_credentials_no_request_witness :
  TelegramService.truthy_opt (TelegramService.TELEGRAM_BOT_TOKEN settings_without_token) = false /\
  TelegramService.send_telegram_message settings_without_token post_refused (lit "hello") =
    (false, []) /\
  TelegramService.notify_new_job settings_without_token post_refused
    sample_strftime sample_fromisoformat sample_job = [].
Proof.
  split; [reflexivity|].
  apply (no_credentials_no_request settings_without_token post_refused N
           sample_strftime sample_fromisoformat (lit "hello") sample_job).
  left. reflexivity.
Defined.

Lemma one_request_per_notification_witness :
  List.map TelegramService.request_url
    (TelegramService.notify_new_job settings_with_token post_refused
       sample_strftime sample_fromisoformat sample_job) =
    [lit "https://api.telegram.org/bot123:abc/sendMessage"] /\
  List.map (fun r => TelegramService.message_thread_id (TelegramService.request_json r))
    (TelegramService.notify_new_job settings_with_token post_refused
       sample_strftime sample_fromisoformat sample_job) = [None] /\
  (TelegramService.send_telegram_message settings_with_token post_refused
     (format_job_message sample_strftime sample_fromisoformat sample_job)).1 = false.
Proof.
  destruct (one_request_per_notification settings_with_token post_refused N
              sample_strftime sample_fromisoformat (lit "123:abc") (lit "-100123") sample_job
              eq_refl eq_refl eq_refl eq_refl) as [Hnotify Hsend].
  rewrite Hnotify, Hsend. repeat split.
Defined.

(** X19 and X26 on two launchers. *)
Definition sample_driver : Driver := {| execute_script := fun _ => Ok () |}.

Definition sample_login_page : SessionManager.LoginPage :=
  {| SessionManager.get_login_page := Ok ();
     SessionManager.window_handles := Ok [1; 2]%N;
     SessionManager.switch_to_window := fun _ => Ok ();
     SessionManager.username_field :=
       Ok {| SessionManager.send_keys := fun _ => Ok () |};
     SessionManager.password_field := no_such |}.

Definition sample_session : SessionManager.Session :=
  {| SessionManager.session_driver := sample_driver;
     SessionManager.quit := Ok ();
     SessionManager.login_page := sample_login_page;
     SessionManager.pages := two_job_browser |}.

(** The first three hardened launches fail, the fourth succeeds. *)
Definition flaky_launcher : SessionManager.Launcher :=
  {| SessionManager.uc_chrome := fun k _ =>
       if k <? 3 then Raise "SessionNotCreatedException"%string else Ok sample_session;
     SessionManager.path_exists := fun _ => false;
     SessionManager.webdriver_chrome := fun _ => Raise "WebDriverException"%string |}.

Definition dead_launcher : SessionManager.Launcher :=
  {| SessionManager.uc_chrome := fun _ _ => Raise "SessionNotCreatedException"%string;
     SessionManager.path_exists := fun _ => false;
     SessionManager.webdriver_chrome := fun _ => Raise "WebDriverException"%string |}.

Lemma first_successful_launch_wins_witness :
  launch_schedule [120; 121]%N 3 !! 3 = Some 121%N /\
  SessionManager.get_driver_with_retry flaky_launcher [120; 121]%N 3 = Some sample_session.
Proof.
  split; [reflexivity|].
  apply (first_successful_launch_wins flaky_launcher [120; 121]%N 3 3 121%N sample_session
           eq_refl eq_refl).
  intros j v' Hj _. exists "SessionNotCreatedException"%string.
  destruct j as [|[|[|j]]]; [reflexivity | reflexivity | reflexivity | lia].
Defined.

Lemma failed_launches_only_retry_witness :
  SessionManager.get_driver_with_retry dead_launcher [120; 121]%N 3 = None /\
  (main_loop N ascii_lower sample_config sample_id sample_clean sample_posted sample_clock
     db_sound [120; 121]%N 3 (lit "user") (lit "secret") 60 5
     (Some sample_session) [dead_launcher; dead_launcher] stored_world).2 = stored_world.
Proof.
  split; [reflexivity|].
  apply (failed_launches_only_retry N ascii_lower sample_config sample_id sample_clean
           sample_posted sample_clock db_sound [120; 121]%N 3 (lit "user") (lit "secret") 60 5
           (Some sample_session) [dead_launcher; dead_launcher] stored_world).
  repeat constructor.
Defined.

Example login_stops_at_missing_password_field :
  SessionManager.login_to_upwork (lit "user") (lit "secret") 60 sample_login_page =
    [SessionManager.Navigated; SessionManager.Slept 25; SessionManager.Switched 2%N;
     SessionManager.UsernameTyped; SessionManager.UsernameEntered].
Proof. reflexivity. Qed.

(** One run of [main]: a first launch, an iteration in which no browser
    can be launched, and a cycle that stores three jobs. *)
Example main_sample_run :
  let res :=
    main N ascii_lower sample_config sample_id sample_clean sample_posted sample_clock
      db_sound [120; 121]%N 3 (lit "user") (lit "secret") 60 5
      (Ok ()) (Ok ()) flaky_launcher [dead_launcher; flaky_launcher] empty_world in
  res.1.1 = StillRunning None /\
  List.map row_job_title (jobs res.2) = [lit "Job A"; lit "Job B"; lit "Job X"] /\
  length (notifications res.2) = 3.
Proof. vm_compute. repeat split. Qed.
